(** * A shallow embedding of webidentity-rs

    The modules of the crate are embedded as follows:
    - [src/error.rs]    : the error enums [ParseError], [SignatureError],
                          [WebIdentityError];
    - [src/resolve.rs]  : [resolve_location_url];
    - [src/identity.rs] : [RawIdentityData], the meta/link handlers
                          ([meta_handler], [link_handler]) folded over the
                          document's elements, [identity_of_raw] and
                          [get_identity], which panics when lol_html
                          refuses the document;
    - [src/sign.rs]     : [hash_body], [build_canonical_string],
                          [create_signed_headers], [verify_signature],
                          [verify_request], with [HeaderProvider] as a class.

    Rust strings are [string] (a list of 8-bit characters, i.e. the UTF-8
    bytes); byte slices are [list byte].  The external crates (sha2,
    ed25519_dalek, url, lol_html, and the Unicode upper-casing of
    [str::to_uppercase]) are the fields of the class [Externals]; every
    statement below holds for every instance of it.  The wall clock read by
    [SystemTime::now()] is an explicit argument [now] (seconds since the
    epoch, a u64). *)

From Stdlib Require Import String Ascii Strings.Byte List NArith Lia.
From stdpp Require Import base gmap strings.
Import ListNotations.
Open Scope string_scope.

(* stdpp makes [String.append] opaque to [simpl]; the proofs below compute
   with it on concrete prefixes. *)
#[global] Arguments String.append : simpl nomatch.

(* ------------------------------------------------------------------ *)
(** ** Results and errors (src/error.rs) *)

Inductive result (A E : Type) : Type :=
| Ok (a : A)
| Err (e : E).
Arguments Ok {A E} a.
Arguments Err {A E} e.

(** [url::ParseError] *)
Inductive ParseError : Type :=
| EmptyHost
| IdnaError
| InvalidPort
| InvalidIpv4Address
| InvalidIpv6Address
| InvalidDomainCharacter
| RelativeUrlWithoutBase
| RelativeUrlWithCannotBeABaseBase
| SetHostOnCannotBeABaseUrl
| Overflow.

Inductive SignatureError : Type :=
| MissingHeader (name : string)
| InvalidTimestamp (ts : string)
| TimestampExpired
| SignatureMismatch.

Inductive WebIdentityError : Type :=
| UrlParse (e : ParseError)
| UnsupportedProtocol (scheme : string)
| MissingPublicKey
| InvalidPublicKeyFormat (reason : string)
| MissingDisplayName
| Signature (e : SignatureError)
| Crypto (msg : string).

(** [map_err] on results and the [?] operator. *)
Definition map_err {A E F} (f : E -> F) (r : result A E) : result A F :=
  match r with Ok a => Ok a | Err e => Err (f e) end.

Definition ok_or {A E} (o : option A) (e : E) : result A E :=
  match o with Some a => Ok a | None => Err e end.

(** A call that returns a value or panics (an [unwrap] on an [Err]). *)
Inductive outcome (A : Type) : Type :=
| Returns (a : A)
| Panics.
Arguments Returns {A} a.
Arguments Panics {A}.

Notation "'let?' x ':=' r 'in' k" :=
  (match r with Ok x => k | Err e => Err e end)
  (at level 200, x name, r at level 100, k at level 200).

(* ------------------------------------------------------------------ *)
(** ** Values of the external crates *)

(** [url::Url]: its serialisation, [host_str()] and [path()]. *)
Record Url := mkUrl {
  url_serialization : string;
  host_str : option string;
  url_path : string
}.

(** An element handed to an [element!] handler by lol_html: its tag name
    and its attributes in source order. *)
Record Element := mkElement {
  el_tag : string;
  el_attrs : list (string * string)
}.

(** [Element::get_attribute]: the value of the first attribute of that name. *)
Fixpoint assoc_first (k : string) (l : list (string * string)) : option string :=
  match l with
  | [] => None
  | (k', v) :: l' => if String.eqb k k' then Some v else assoc_first k l'
  end.

Definition get_attribute (el : Element) (name : string) : option string :=
  assoc_first name (el_attrs el).

(** The external crates the library calls. *)
Class Externals := {
  (** sha2::Sha256 digest *)
  sha256 : list byte -> list byte;
  (** [VerifyingKey::from_bytes] on a 32-byte array: [true] when it is [Ok] *)
  verifying_key_valid : list byte -> bool;
  (** [VerifyingKey::verify(msg, sig)] on a valid key and 64-byte signature *)
  ed25519_verify : list byte -> list byte -> list byte -> bool;
  (** [SigningKey::sign(msg).to_bytes()], the key given by its secret bytes *)
  ed25519_sign : list byte -> list byte -> list byte;
  (** [str::to_uppercase] *)
  to_uppercase : string -> string;
  (** [Url::parse] *)
  url_parse : string -> result Url ParseError;
  (** [Url::join] *)
  url_join : Url -> string -> result Url ParseError;
  (** [rewriter.write(content)] and [rewriter.end()] both return [Ok]:
      with [Settings::default()] lol_html runs in strict mode and returns
      a parsing-ambiguity error on markup such as [<select><title>] *)
  html_rewrite_ok : string -> bool;
  (** the elements lol_html's rewriter visits, in document order, when it
      accepts the document *)
  html_elements : string -> list Element
}.

(** [ed25519_dalek::SigningKey], by its secret bytes. *)
Record SigningKey := mkSigningKey { sk_bytes : list byte }.

(** [std::time::Duration] *)
Record Duration := mkDuration { dur_secs : N; dur_nanos : N }.
Definition as_secs (d : Duration) : N := dur_secs d.

(* ------------------------------------------------------------------ *)
(** ** String and byte helpers of std and the hex crate *)

Definition slash : ascii := "/"%char.
Definition nl : string := String (ascii_of_nat 10) EmptyString.

(** [str::starts_with] *)
Fixpoint starts_with (pre s : string) : bool :=
  match pre, s with
  | EmptyString, _ => true
  | String a pre', String b s' => Ascii.eqb a b && starts_with pre' s'
  | String _ _, EmptyString => false
  end.

(** [str::contains] for a string pattern *)
Fixpoint contains (pat s : string) : bool :=
  starts_with pat s ||
  match s with
  | EmptyString => false
  | String _ s' => contains pat s'
  end.

(** [s.split(pat).next().unwrap_or("")]: the part before the first match
    of [pat] (the whole string when there is none). *)
Fixpoint split_first (pat s : string) : string :=
  if starts_with pat s then EmptyString
  else match s with
       | EmptyString => EmptyString
       | String a s' => String a (split_first pat s')
       end.

(** [str::trim_end_matches(c)]: removes every trailing [c]. *)
Fixpoint trim_end_matches (c : ascii) (s : string) : string :=
  match s with
  | EmptyString => EmptyString
  | String a s' =>
      let r := trim_end_matches c s' in
      match r with
      | EmptyString => if Ascii.eqb a c then EmptyString else String a EmptyString
      | _ => String a r
      end
  end.

(** [str::as_bytes] *)
Definition as_bytes (s : string) : list byte := list_byte_of_string s.

(** [hex::encode]: two lower-case digits per byte. *)
Definition hex_digit (n : nat) : ascii :=
  if Nat.ltb n 10 then ascii_of_nat (48 + n) else ascii_of_nat (87 + n).

Fixpoint hex_encode (bs : list byte) : string :=
  match bs with
  | [] => EmptyString
  | b :: bs' =>
      let n := Byte.to_nat b in
      String (hex_digit (n / 16)) (String (hex_digit (n mod 16)) (hex_encode bs'))
  end.

(** The value of a hex digit, upper or lower case. *)
Definition hex_val (c : ascii) : option nat :=
  let n := nat_of_ascii c in
  if Nat.leb 48 n && Nat.leb n 57 then Some (n - 48)
  else if Nat.leb 97 n && Nat.leb n 102 then Some (n - 87)
  else if Nat.leb 65 n && Nat.leb n 70 then Some (n - 55)
  else None.

(** [hex::decode]: fails on an odd length or a non-hex character. *)
Fixpoint hex_decode (s : string) : option (list byte) :=
  match s with
  | EmptyString => Some []
  | String _ EmptyString => None
  | String h (String l s') =>
      match hex_val h, hex_val l, hex_decode s' with
      | Some vh, Some vl, Some rest =>
          match Byte.of_nat (vh * 16 + vl) with
          | Some b => Some (b :: rest)
          | None => None
          end
      | _, _, _ => None
      end
  end.

(** [u64::to_string]: decimal digits, no leading zeros. *)
Fixpoint decimal_go (fuel : nat) (n : N) (acc : string) : string :=
  match fuel with
  | O => acc
  | S fuel' =>
      let d := ascii_of_nat (48 + N.to_nat (n mod 10)) in
      if (n <? 10)%N then String d acc
      else decimal_go fuel' (n / 10)%N (String d acc)
  end.

Definition u64_to_string (n : N) : string := decimal_go (S (N.size_nat n)) n EmptyString.

Definition u64_max : N := (2 ^ 64 - 1)%N.

(** [str::parse::<u64>]: an optional [+], then at least one decimal digit,
    the value at most [u64::MAX]. *)
Fixpoint digits_value (s : string) (acc : N) : option N :=
  match s with
  | EmptyString => Some acc
  | String c s' =>
      let n := nat_of_ascii c in
      if Nat.leb 48 n && Nat.leb n 57 then
        let acc' := (acc * 10 + N.of_nat (n - 48))%N in
        if (acc' <=? u64_max)%N then digits_value s' acc' else None
      else None
  end.

Definition parse_u64 (s : string) : option N :=
  match s with
  | EmptyString => None
  | String c s' =>
      if Ascii.eqb c "+"%char then
        match s' with EmptyString => None | _ => digits_value s' 0 end
      else digits_value s 0
  end.

(** [as_array::<u8, N>]: the slice itself when its length is [N]. *)
Definition as_array (n : nat) (v : list byte) : option (list byte) :=
  if Nat.eqb (length v) n then Some v else None.

(* ------------------------------------------------------------------ *)
(** ** src/sign.rs *)

Section Sign.
Context `{Externals}.

Definition hash_body (body : list byte) : string := hex_encode (sha256 body).

Definition build_canonical_string
    (method host path body_hash location timestamp : string) : string :=
  let clean_path := if String.eqb path "/" then path else trim_end_matches slash path in
  String.concat nl
    [to_uppercase method; host; clean_path; body_hash; location; timestamp].

Definition header_location : string := "WebIdentity-Location".
Definition header_timestamp : string := "WebIdentity-Timestamp".
Definition header_signature : string := "WebIdentity-Signature".

Definition create_signed_headers (now : N)
    (location http_method host path : string) (body : list byte)
    (signing_key : SigningKey) : result (gmap string string) WebIdentityError :=
  let timestamp := u64_to_string now in
  let body_hash := hash_body body in
  let canonical_string :=
    build_canonical_string http_method host path body_hash location timestamp in
  let signature := ed25519_sign (sk_bytes signing_key) (as_bytes canonical_string) in
  let signature_hex := hex_encode signature in
  let headers : gmap string string := ∅ in
  let headers := <[header_location := location]> headers in
  let headers := <[header_timestamp := timestamp]> headers in
  let headers := <[header_signature := signature_hex]> headers in
  Ok headers.

End Sign.

(** The [HeaderProvider] trait and its [HashMap] implementation. *)
Class HeaderProvider (Hd : Type) := get_header : Hd -> string -> option string.

#[global] Instance SimpleHeaderProvider : HeaderProvider (gmap string string) :=
  fun m name => m !! name.

Section Verify.
Context `{Externals}.

Definition verify_signature (public_key original_bytes signature : list byte)
    : result unit WebIdentityError :=
  let? pk := ok_or (as_array 32 public_key) (Signature SignatureMismatch) in
  if negb (verifying_key_valid pk) then Err (Signature SignatureMismatch) else
  let? signature_bytes := ok_or (as_array 64 signature) (Signature SignatureMismatch) in
  if ed25519_verify pk original_bytes signature_bytes then Ok tt
  else Err (Signature SignatureMismatch).

Definition verify_request {Hd} `{HeaderProvider Hd} (now : N)
    (http_method host path : string) (body : list byte) (headers : Hd)
    (public_key_bytes : list byte) (max_age : Duration)
    : result unit WebIdentityError :=
  let? location := ok_or (get_header headers header_location)
                         (Signature (MissingHeader header_location)) in
  let? timestamp_str := ok_or (get_header headers header_timestamp)
                              (Signature (MissingHeader header_timestamp)) in
  let? signature_hex := ok_or (get_header headers header_signature)
                              (Signature (MissingHeader header_signature)) in
  let? timestamp := ok_or (parse_u64 timestamp_str)
                          (Signature (InvalidTimestamp timestamp_str)) in
  (* [N.sub] is the saturating subtraction of u64 *)
  if (as_secs max_age <? now - timestamp)%N then Err (Signature TimestampExpired) else
  let body_hash := hash_body body in
  let canonical_string :=
    build_canonical_string http_method host path body_hash location timestamp_str in
  let? signature_bytes := ok_or (hex_decode signature_hex) (Signature SignatureMismatch) in
  verify_signature public_key_bytes (as_bytes canonical_string) signature_bytes.

End Verify.

(* ------------------------------------------------------------------ *)
(** ** src/resolve.rs *)

Section Resolve.
Context `{Externals}.

Definition resolve_location_url (location : string) : result Url WebIdentityError :=
  if contains "://" location then
    let scheme := split_first "://" location in
    if String.eqb scheme "http" || String.eqb scheme "https" then
      map_err UrlParse (url_parse location)
    else Err (UnsupportedProtocol scheme)
  else
    let full_url := "https://" ++ location in
    map_err UrlParse (url_parse full_url).

End Resolve.

(* ------------------------------------------------------------------ *)
(** ** src/identity.rs *)

Definition PK_PREFIX : string := "ed25519-pub:".

Record Identity := mkIdentity {
  id : string;
  public_key : list byte;
  display_name : string;
  avatar : option Url;
  description : option string;
  location_url : Url;
  location : string
}.

Record RawIdentityData := mkRaw {
  raw_public_key : option string;
  raw_display_name : option string;
  raw_author : option string;
  raw_og_author : option string;
  raw_og_title : option string;
  raw_avatar : option string;
  raw_og_image : option string;
  raw_favicon : option string;
  raw_description : option string;
  raw_og_description : option string
}.

(** [RawIdentityData::default()] *)
Definition raw_default : RawIdentityData :=
  mkRaw None None None None None None None None None None.

(** The fields of [RawIdentityData], to write one assignment [data.f = v]. *)
Inductive Field :=
| FPublicKey | FDisplayName | FAuthor | FOgAuthor | FOgTitle
| FAvatar | FOgImage | FFavicon | FDescription | FOgDescription.

#[global] Instance Field_eq_dec : EqDecision Field.
Proof. solve_decision. Defined.

Definition upd (f g : Field) (v old : option string) : option string :=
  if decide (f = g) then v else old.

(** [data.f = v] *)
Definition set_field (f : Field) (v : option string) (r : RawIdentityData)
    : RawIdentityData :=
  {| raw_public_key := upd f FPublicKey v (raw_public_key r);
     raw_display_name := upd f FDisplayName v (raw_display_name r);
     raw_author := upd f FAuthor v (raw_author r);
     raw_og_author := upd f FOgAuthor v (raw_og_author r);
     raw_og_title := upd f FOgTitle v (raw_og_title r);
     raw_avatar := upd f FAvatar v (raw_avatar r);
     raw_og_image := upd f FOgImage v (raw_og_image r);
     raw_favicon := upd f FFavicon v (raw_favicon r);
     raw_description := upd f FDescription v (raw_description r);
     raw_og_description := upd f FOgDescription v (raw_og_description r) |}.

(** The arms of [match key.as_str()] in the meta handler: the field each
    recognised key is assigned to ([_ => {}] is [None]). *)
Definition meta_key_field (key : string) : option Field :=
  if String.eqb key "identity:public-key" then Some FPublicKey
  else if String.eqb key "identity:display-name" then Some FDisplayName
  else if String.eqb key "identity:avatar" then Some FAvatar
  else if String.eqb key "identity:description" then Some FDescription
  else if String.eqb key "author" then Some FAuthor
  else if String.eqb key "og:author" then Some FOgAuthor
  else if String.eqb key "og:title" then Some FOgTitle
  else if String.eqb key "og:image" then Some FOgImage
  else if String.eqb key "og:description" then Some FOgDescription
  else if String.eqb key "description" then Some FDescription
  else None.

(** [Option::or] *)
Definition option_or {A} (a b : option A) : option A :=
  match a with Some _ => a | None => b end.

(** [element!("meta", ...)] *)
Definition meta_handler (el : Element) (data : RawIdentityData) : RawIdentityData :=
  let name := get_attribute el "name" in
  let property := get_attribute el "property" in
  let content := get_attribute el "content" in
  match content with
  | Some content =>
      let key := option_or property name in
      match key with
      | Some key =>
          match meta_key_field key with
          | Some f => set_field f (Some content) data
          | None => data
          end
      | None => data
      end
  | None => data
  end.

(** [element!("link", ...)] *)
Definition link_handler (el : Element) (data : RawIdentityData) : RawIdentityData :=
  match get_attribute el "rel" with
  | Some rel =>
      if String.eqb rel "icon" || String.eqb rel "shortcut icon" then
        match get_attribute el "href" with
        | Some href => set_field FFavicon (Some href) data
        | None => data
        end
      else data
  | None => data
  end.

(** The rewriter runs the handler whose selector matches each element, in
    document order, on the one shared [RawIdentityData]. *)
Definition handle_element (data : RawIdentityData) (el : Element) : RawIdentityData :=
  if String.eqb (el_tag el) "meta" then meta_handler el data
  else if String.eqb (el_tag el) "link" then link_handler el data
  else data.

Definition extract (els : list Element) : RawIdentityData :=
  fold_left handle_element els raw_default.

(** [&s[n..]] *)
Fixpoint str_drop (n : nat) (s : string) : string :=
  match n, s with
  | O, _ => s
  | S n', String _ s' => str_drop n' s'
  | S _, EmptyString => EmptyString
  end.

(** [Option::filter(|s| !s.is_empty())] *)
Definition filter_nonempty (o : option string) : option string :=
  match o with
  | Some s => if String.eqb s "" then None else Some s
  | None => None
  end.

(** [Result::ok] *)
Definition result_ok {A E} (r : result A E) : option A :=
  match r with Ok a => Some a | Err _ => None end.

Section GetIdentity.
Context `{Externals}.

Definition identity_location (source_url : Url) : string :=
  let host := match host_str source_url with Some h => h | None => "" end in
  trim_end_matches slash (host ++ url_path source_url).

(** Lines 93-149 of [get_identity]: the record built from the data the
    handlers collected. *)
Definition identity_of_raw (source_url : Url) (data : RawIdentityData)
    : result Identity WebIdentityError :=
  let? pk_hex := ok_or (raw_public_key data) MissingPublicKey in
  if negb (starts_with PK_PREFIX pk_hex) then
    Err (InvalidPublicKeyFormat
           ("This server only supports keys that start with '" ++ PK_PREFIX ++ "'."))
  else
  let? public_key_bytes :=
    ok_or (hex_decode (str_drop (String.length PK_PREFIX) pk_hex))
          (InvalidPublicKeyFormat "Invalid hex encoding.") in
  let? bytes := ok_or (as_array 32 public_key_bytes)
                      (InvalidPublicKeyFormat "Wrong key size") in
  if negb (verifying_key_valid bytes) then
    Err (InvalidPublicKeyFormat "Not a valid Ed25519 public key.")
  else
  let id := hex_encode (sha256 public_key_bytes) in
  let location := identity_location source_url in
  let display_name :=
    match filter_nonempty
            (option_or (option_or (option_or (raw_display_name data) (raw_author data))
                                  (raw_og_author data))
                       (raw_og_title data)) with
    | Some s => s
    | None => location
    end in
  let avatar_str := option_or (option_or (raw_avatar data) (raw_og_image data))
                              (raw_favicon data) in
  let avatar := match avatar_str with
                | Some href => result_ok (url_join source_url href)
                | None => None
                end in
  let description := option_or (raw_description data) (raw_og_description data) in
  Ok {| id := id;
        public_key := public_key_bytes;
        display_name := display_name;
        avatar := avatar;
        description := description;
        location_url := source_url;
        location := location |}.

(** [get_identity]: the rewriter runs the handlers over the document,
    [rewriter.write(..).unwrap()] and [rewriter.end().unwrap()] panic when
    lol_html returns an error, and [Rc::try_unwrap(raw_data).unwrap()]
    succeeds since [end] consumed the rewriter and its handlers. *)
Definition get_identity (source_url : Url) (content : string)
    : outcome (result Identity WebIdentityError) :=
  if html_rewrite_ok content
  then Returns (identity_of_raw source_url (extract (html_elements content)))
  else Panics.

End GetIdentity.

(* ------------------------------------------------------------------ *)
(** ** A concrete instance of the external crates, for evaluation

    Stand-ins that compute: the identity "hash", keys that are all valid,
    signatures that are the first 64 bytes of key ++ message, ASCII
    upper-casing, a URL parser that keeps the text, and a fixed element
    list for the document. *)

Definition ascii_upper (c : ascii) : ascii :=
  let n := nat_of_ascii c in
  if Nat.leb 97 n && Nat.leb n 122 then ascii_of_nat (n - 32) else c.

Fixpoint string_upper (s : string) : string :=
  match s with
  | EmptyString => EmptyString
  | String c s' => String (ascii_upper c) (string_upper s')
  end.

Definition toy_sign (sk msg : list byte) : list byte :=
  firstn 64 (sk ++ msg ++ repeat x00 64).

Fixpoint bytes_eqb (a b : list byte) : bool :=
  match a, b with
  | [], [] => true
  | x :: a', y :: b' => Byte.eqb x y && bytes_eqb a' b'
  | _, _ => false
  end.

Definition toy_externals (doc : list Element) : Externals := {|
  sha256 := fun bs => bs;
  verifying_key_valid := fun _ => true;
  ed25519_verify := fun pk msg sig => bytes_eqb sig (toy_sign pk msg);
  ed25519_sign := toy_sign;
  to_uppercase := string_upper;
  url_parse := fun s => Ok (mkUrl s (Some "example.com") "/");
  url_join := fun u s => Ok (mkUrl s (host_str u) (url_path u));
  html_rewrite_ok := fun _ => true;
  html_elements := fun _ => doc
|}.

(** The same, with lol_html's strict mode refusing [<select><title>]. *)
Definition strict_externals (doc : list Element) : Externals := {|
  sha256 := fun bs => bs;
  verifying_key_valid := fun _ => true;
  ed25519_verify := fun pk msg sig => bytes_eqb sig (toy_sign pk msg);
  ed25519_sign := toy_sign;
  to_uppercase := string_upper;
  url_parse := fun s => Ok (mkUrl s (Some "example.com") "/");
  url_join := fun u s => Ok (mkUrl s (host_str u) (url_path u));
  html_rewrite_ok := fun s => negb (contains "<select><title>" s);
  html_elements := fun _ => doc
|}.

(** The same, with every [Url::join] failing. *)
Definition join_failing_externals (doc : list Element) : Externals := {|
  sha256 := fun bs => bs;
  verifying_key_valid := fun _ => true;
  ed25519_verify := fun pk msg sig => bytes_eqb sig (toy_sign pk msg);
  ed25519_sign := toy_sign;
  to_uppercase := string_upper;
  url_parse := fun s => Ok (mkUrl s (Some "example.com") "/");
  url_join := fun _ _ => Err RelativeUrlWithoutBase;
  html_rewrite_ok := fun _ => true;
  html_elements := fun _ => doc
|}.

Definition meta (key_attr key content : string) : Element :=
  mkElement "meta" [(key_attr, key); ("content", content)].

Definition sample_key_hex : string :=
  "ed25519-pub:" ++ hex_encode (repeat x01 32).

Definition sample_url : Url := mkUrl "https://example.com/me/" (Some "example.com") "/me/".

(* ------------------------------------------------------------------ *)
(** ** The canonical string as the spec words it

    "uppercased method; host; path with trailing slash stripped (except
    when path is exactly [/]); body hash; location; timestamp", joined
    with newlines.  The stripping is written independently of the
    source's [trim_end_matches]: reverse, drop the leading slashes,
    reverse back. *)

Fixpoint drop_slashes (l : list ascii) : list ascii :=
  match l with
  | c :: l' => if Ascii.eqb c slash then drop_slashes l' else l
  | [] => []
  end.

Definition strip_trailing_slashes (p : string) : string :=
  string_of_list_ascii (rev (drop_slashes (rev (list_ascii_of_string p)))).

Definition canonical_path (p : string) : string :=
  if String.eqb p "/" then "/" else strip_trailing_slashes p.

Definition canonical_string_spec `{Externals}
    (method host path : string) (body : list byte) (location timestamp : string)
    : string :=
  String.concat nl
    [to_uppercase method; host; canonical_path path; hex_encode (sha256 body);
     location; timestamp].

(** The header map [create_signed_headers] builds. *)
Definition signed_headers (location timestamp signature_hex : string)
    : gmap string string :=
  <[header_signature := signature_hex]>
    (<[header_timestamp := timestamp]> (<[header_location := location]> ∅)).

(* ------------------------------------------------------------------ *)
(** ** The extraction pass as the spec words it

    A meta tag's key is its [property], else its [name]; the value a key
    (or a set of keys) ends with is the [content] of the last meta tag in
    document order carrying it. *)

Definition meta_entry (el : Element) : option (string * string) :=
  if String.eqb (el_tag el) "meta" then
    match option_or (get_attribute el "property") (get_attribute el "name"),
          get_attribute el "content" with
    | Some k, Some c => Some (k, c)
    | _, _ => None
    end
  else None.

Fixpoint last_value (keyp : string -> bool) (els : list Element) : option string :=
  match els with
  | [] => None
  | el :: rest =>
      match last_value keyp rest with
      | Some v => Some v
      | None =>
          match meta_entry el with
          | Some (k, c) => if keyp k then Some c else None
          | None => None
          end
      end
  end.

(** The meta keys recorded into each slot of [RawIdentityData]. *)
Definition field_keys (f : Field) (k : string) : bool :=
  match f with
  | FPublicKey => String.eqb k "identity:public-key"
  | FDisplayName => String.eqb k "identity:display-name"
  | FAuthor => String.eqb k "author"
  | FOgAuthor => String.eqb k "og:author"
  | FOgTitle => String.eqb k "og:title"
  | FAvatar => String.eqb k "identity:avatar"
  | FOgImage => String.eqb k "og:image"
  | FFavicon => false
  | FDescription => String.eqb k "identity:description" || String.eqb k "description"
  | FOgDescription => String.eqb k "og:description"
  end.

Definition field_of (f : Field) (r : RawIdentityData) : option string :=
  match f with
  | FPublicKey => raw_public_key r
  | FDisplayName => raw_display_name r
  | FAuthor => raw_author r
  | FOgAuthor => raw_og_author r
  | FOgTitle => raw_og_title r
  | FAvatar => raw_avatar r
  | FOgImage => raw_og_image r
  | FFavicon => raw_favicon r
  | FDescription => raw_description r
  | FOgDescription => raw_og_description r
  end.

(** Documents used to evaluate [get_identity]. *)
Definition doc_plain_description : list Element :=
  [meta "name" "identity:public-key" sample_key_hex;
   meta "name" "description" "D";
   meta "property" "og:description" "O"].

Definition doc_empty_display_name : list Element :=
  [meta "name" "identity:public-key" sample_key_hex;
   meta "name" "identity:display-name" "";
   meta "name" "author" "Alice"].

(* ------------------------------------------------------------------ *)
(** ** [sign_bytes] (src/sign.rs) *)

Section SignBytes.
Context `{Externals}.

Definition sign_bytes (signing_key bytes : list byte) : result (list byte) WebIdentityError :=
  let? key := ok_or (as_array 32 signing_key) (Signature SignatureMismatch) in
  Ok (ed25519_sign key bytes).

End SignBytes.

(** The favicon candidate as the spec words it: the [href] of the last
    [link] tag whose [rel] is [icon] or [shortcut icon] and which has an
    [href]. *)
Fixpoint last_icon_href (els : list Element) : option string :=
  match els with
  | [] => None
  | el :: rest =>
      match last_icon_href rest with
      | Some v => Some v
      | None =>
          if String.eqb (el_tag el) "link" then
            match get_attribute el "rel" with
            | Some r => if String.eqb r "icon" || String.eqb r "shortcut icon"
                        then get_attribute el "href" else None
            | None => None
            end
          else None
      end
  end.

(** A key pair of the concrete instance: its public key is its secret. *)
Definition demo_key_bytes : list byte := repeat x01 32.
Definition demo_signing_key : SigningKey := mkSigningKey demo_key_bytes.

(** The headers the demo request is signed with at time 100. *)
Definition demo_headers : gmap string string :=
  match @create_signed_headers (toy_externals []) 100%N "amy.carroted.org" "POST"
          "example.com" "/v1/messages" (as_bytes "hello") demo_signing_key with
  | Ok hs => hs
  | Err _ => ∅
  end.

(** The identity parsed from a document, or a placeholder on error. *)
Definition identity_of (doc : list Element) : Identity :=
  match @get_identity (toy_externals doc) sample_url "" with
  | Returns (Ok i) => i
  | _ => mkIdentity "" [] "" None None sample_url ""
  end.

Definition doc_with_icon : list Element :=
  [meta "name" "identity:public-key" sample_key_hex;
   meta "name" "identity:display-name" "Amy";
   mkElement "link" [("rel", "icon"); ("href", "/icon.svg")]].

(** A string of decimal digits and its value with no bound: what
    [u64::from_str] reads after an optional [+], rejecting the string when
    the value does not fit. *)
Fixpoint all_digits (s : string) : bool :=
  match s with
  | EmptyString => true
  | String c s' =>
      Nat.leb 48 (nat_of_ascii c) && Nat.leb (nat_of_ascii c) 57 && all_digits s'
  end.

Fixpoint decimal_value_from (acc : N) (s : string) : N :=
  match s with
  | EmptyString => acc
  | String c s' => decimal_value_from (acc * 10 + N.of_nat (nat_of_ascii c - 48))%N s'
  end.

Definition decimal_value (s : string) : N := decimal_value_from 0 s.

(* ================================================================== *)
(** * Theorems *)

(** ** Path normalisation *)

Lemma drop_slashes_snoc (xs : list ascii) (a : ascii) :
  drop_slashes (app xs [a]) =
  match drop_slashes xs with [] => drop_slashes [a] | r => app r [a] end.
Proof.
  induction xs as [|c xs IH]; [reflexivity|].
  simpl. destruct (Ascii.eqb c slash); [exact IH | reflexivity].
Qed.

Lemma strip_trailing_slashes_cons (a : ascii) (s : string) :
  strip_trailing_slashes (String a s) =
  match strip_trailing_slashes s with
  | EmptyString => if Ascii.eqb a slash then EmptyString else String a EmptyString
  | r => String a r
  end.
Proof.
  unfold strip_trailing_slashes. cbn [list_ascii_of_string rev].
  rewrite drop_slashes_snoc.
  destruct (drop_slashes (rev (list_ascii_of_string s))) as [|c r].
  - cbn. destruct (Ascii.eqb a slash); reflexivity.
  - rewrite rev_app_distr. cbn [rev app string_of_list_ascii].
    destruct (app (rev r) [c]) eqn:R.
    + apply (f_equal (@length _)) in R. rewrite length_app in R. simpl in R. lia.
    + reflexivity.
Qed.

Lemma trim_end_matches_strip (s : string) :
  trim_end_matches slash s = strip_trailing_slashes s.
Proof.
  induction s as [|a s IH]; [reflexivity|].
  rewrite strip_trailing_slashes_cons. cbn [trim_end_matches]. rewrite IH.
  destruct (strip_trailing_slashes s); reflexivity.
Qed.

Section CanonicalString.
Context `{Externals}.

Lemma build_canonical_string_spec (m h p : string) (b : list byte) (loc ts : string) :
  build_canonical_string m h p (hash_body b) loc ts = canonical_string_spec m h p b loc ts.
Proof.
  unfold build_canonical_string, canonical_string_spec, canonical_path, hash_body.
  destruct (String.eqb p "/") eqn:E.
  - apply String.eqb_eq in E. subst. reflexivity.
  - rewrite trim_end_matches_strip. reflexivity.
Qed.

(** Claim C1.  The signer and the verifier build the same canonical
    string: the newline-joined upper-cased method, host, path with its
    trailing slashes stripped (["/"] kept as it is), hex SHA-256 of the
    body, location verbatim and timestamp.  The signer signs it with its
    decimal [now]; the verifier checks the signature against it with the
    asserted timestamp header.  ["/v1/messages/"] and ["/v1/messages"]
    give the same string and ["/"] stays ["/"]. *)
Theorem canonical_string_layout :
  (forall (now : N) (loc m h p : string) (b : list byte) (sk : SigningKey),
     create_signed_headers now loc m h p b sk =
     Ok (signed_headers loc (u64_to_string now)
           (hex_encode (ed25519_sign (sk_bytes sk)
              (as_bytes (canonical_string_spec m h p b loc (u64_to_string now))))))) /\
  (forall (Hd : Type) (HP : HeaderProvider Hd) (now : N) (m h p : string)
          (b : list byte) (headers : Hd) (pk : list byte) (max_age : Duration)
          (loc ts sig_hex : string) (t : N) (sig : list byte),
     get_header headers header_location = Some loc ->
     get_header headers header_timestamp = Some ts ->
     get_header headers header_signature = Some sig_hex ->
     parse_u64 ts = Some t ->
     (now - t <= as_secs max_age)%N ->
     hex_decode sig_hex = Some sig ->
     verify_request now m h p b headers pk max_age =
     verify_signature pk (as_bytes (canonical_string_spec m h p b loc ts)) sig) /\
  (forall (m h : string) (b : list byte) (loc ts : string),
     canonical_string_spec m h "/v1/messages/" b loc ts =
     canonical_string_spec m h "/v1/messages" b loc ts) /\
  canonical_path "/" = "/".
Proof.
  split; [|split; [|split]].
  - intros. unfold create_signed_headers. rewrite build_canonical_string_spec. reflexivity.
  - intros Hd HP now m h p b headers pk max_age loc ts sig_hex t sig
           Hl Ht Hs Hp Hfresh Hd'.
    unfold verify_request. rewrite Hl, Ht, Hs. cbn [ok_or].
    rewrite Hp, Hd'. cbn [ok_or].
    destruct (as_secs max_age <? now - t)%N eqn:E.
    + apply N.ltb_lt in E. lia.
    + rewrite build_canonical_string_spec. reflexivity.
  - reflexivity.
  - reflexivity.
Qed.

End CanonicalString.

(** ** Scheme extraction in [resolve_location_url] *)

Lemma starts_with_self (p r : string) : starts_with p (p ++ r) = true.
Proof.
  induction p as [|a p IH]; [reflexivity|].
  simpl. rewrite Ascii.eqb_refl. exact IH.
Qed.

Lemma starts_with_app_long (p s t : string) :
  String.length p <= String.length s -> starts_with p (s ++ t) = starts_with p s.
Proof.
  revert s. induction p as [|a p IH]; intros s Hl; [reflexivity|].
  destruct s as [|b s]; simpl in Hl; [lia|].
  simpl. rewrite IH by lia. reflexivity.
Qed.

Lemma contains_app_mid (p s r : string) : contains p (s ++ p ++ r) = true.
Proof.
  induction s as [|a s IH].
  - destruct p as [|a p]; [destruct r; reflexivity|].
    simpl. rewrite Ascii.eqb_refl, starts_with_self. reflexivity.
  - change (contains p (String a (s ++ p ++ r)) = true).
    change (starts_with p (String a (s ++ p ++ r)) || contains p (s ++ p ++ r) = true).
    rewrite IH. apply orb_true_r.
Qed.

(** No occurrence of ["://"] can straddle the end of a scheme free of it
    and the separator that follows. *)
Lemma sep_not_straddling (scheme rest : string) :
  scheme <> EmptyString -> contains "://" scheme = false ->
  starts_with "://" (scheme ++ "://" ++ rest) = false.
Proof.
  intros Hne Hc.
  destruct scheme as [|a [|b [|c s]]]; [congruence| | |].
  - cbn -[Ascii.eqb]. destruct (Ascii.eqb ":" a); reflexivity.
  - cbn -[Ascii.eqb].
    destruct (Ascii.eqb ":" a), (Ascii.eqb "/" b); reflexivity.
  - rewrite starts_with_app_long by (simpl; lia).
    destruct (starts_with "://" (String a (String b (String c s)))) eqn:E; [|reflexivity].
    unfold contains in Hc. fold contains in Hc. rewrite E in Hc. discriminate.
Qed.

Lemma split_first_scheme (scheme rest : string) :
  contains "://" scheme = false -> split_first "://" (scheme ++ "://" ++ rest) = scheme.
Proof.
  induction scheme as [|a s IH]; intros Hc.
  - simpl. reflexivity.
  - pose proof (sep_not_straddling (String a s) rest ltac:(discriminate) Hc) as Hs.
    cbn [String.append] in Hs |- *. cbn [split_first]. rewrite Hs.
    f_equal. apply IH.
    simpl in Hc. apply orb_false_iff in Hc. apply Hc.
Qed.

Section ResolveTheorems.
Context `{Externals}.

(** Claim C4.  A location containing ["://"] is cut at its first
    occurrence: the part before it is the scheme, and only ["http"] and
    ["https"] are accepted (the whole string is then parsed), any other
    scheme giving [UnsupportedProtocol scheme]; a location without
    ["://"] is parsed with ["https://"] prepended.  Hence ["example.com"]
    resolves as ["https://example.com"], ["http://example.com"] is parsed
    unchanged and ["ftp://example.com"] fails with
    [UnsupportedProtocol "ftp"]. *)
Theorem resolve_location_url_scheme :
  (forall scheme rest : string,
     contains "://" scheme = false ->
     resolve_location_url (scheme ++ "://" ++ rest) =
     if String.eqb scheme "http" || String.eqb scheme "https"
     then map_err UrlParse (url_parse (scheme ++ "://" ++ rest))
     else Err (UnsupportedProtocol scheme)) /\
  (forall location : string,
     contains "://" location = false ->
     resolve_location_url location = map_err UrlParse (url_parse ("https://" ++ location))) /\
  resolve_location_url "example.com" = map_err UrlParse (url_parse "https://example.com") /\
  resolve_location_url "http://example.com" = map_err UrlParse (url_parse "http://example.com") /\
  resolve_location_url "ftp://example.com" = Err (UnsupportedProtocol "ftp").
Proof.
  split; [|split; [|split; [|split]]].
  - intros scheme rest Hc. unfold resolve_location_url.
    rewrite contains_app_mid, split_first_scheme by exact Hc. reflexivity.
  - intros location Hc. unfold resolve_location_url. rewrite Hc. reflexivity.
  - reflexivity.
  - reflexivity.
  - reflexivity.
Qed.

(** Claim C10.  The scheme comparison is case-sensitive: ["HTTP://..."]
    is refused with [UnsupportedProtocol "HTTP"], whatever follows the
    separator. *)
Theorem resolve_scheme_case_sensitive :
  forall rest : string,
    resolve_location_url ("HTTP://" ++ rest) = Err (UnsupportedProtocol "HTTP").
Proof.
  intros rest. unfold resolve_location_url.
  change ("HTTP://" ++ rest) with ("HTTP" ++ "://" ++ rest).
  rewrite contains_app_mid, split_first_scheme by reflexivity. reflexivity.
Qed.

End ResolveTheorems.

(** ** The verifier's error paths *)

Section VerifyTheorems.
Context `{Externals}.

Lemma as_array_spec (n : nat) (v : list byte) :
  as_array n v = if Nat.eqb (length v) n then Some v else None.
Proof. reflexivity. Qed.

(** [verify_signature] succeeds exactly when every check passes and
    otherwise reports [SignatureMismatch]. *)
Lemma verify_signature_cases (pk msg sig : list byte) :
  verify_signature pk msg sig =
  if Nat.eqb (length pk) 32 && verifying_key_valid pk && Nat.eqb (length sig) 64
     && ed25519_verify pk msg sig
  then Ok tt else Err (Signature SignatureMismatch).
Proof.
  unfold verify_signature. rewrite !as_array_spec.
  destruct (Nat.eqb (length pk) 32); [|reflexivity]. cbn [ok_or andb negb].
  destruct (verifying_key_valid pk); [|reflexivity]. cbn [negb andb].
  destruct (Nat.eqb (length sig) 64); [|reflexivity]. cbn [ok_or andb].
  reflexivity.
Qed.

(** After the header and timestamp steps, [verify_request] is either the
    freshness failure or the signature step. *)
Lemma verify_request_after_headers {Hd} `{HeaderProvider Hd} (now : N)
    (m h p : string) (b : list byte) (headers : Hd) (pk : list byte)
    (max_age : Duration) (loc ts sig_hex : string) (t : N) :
  get_header headers header_location = Some loc ->
  get_header headers header_timestamp = Some ts ->
  get_header headers header_signature = Some sig_hex ->
  parse_u64 ts = Some t ->
  verify_request now m h p b headers pk max_age =
  if (as_secs max_age <? now - t)%N then Err (Signature TimestampExpired)
  else match hex_decode sig_hex with
       | Some sig =>
           verify_signature pk (as_bytes (build_canonical_string m h p (hash_body b) loc ts)) sig
       | None => Err (Signature SignatureMismatch)
       end.
Proof.
  intros Hl Ht Hs Hp. unfold verify_request.
  rewrite Hl, Ht, Hs. cbn [ok_or]. rewrite Hp. cbn [ok_or].
  destruct (as_secs max_age <? now - t)%N; [reflexivity|].
  destruct (hex_decode sig_hex); reflexivity.
Qed.

(** Claim C5.  Once the three headers are present and the timestamp is
    fresh, a signature that is not hex, a decoded signature that is not
    64 bytes, a public key that is not 32 bytes or not a valid key, and a
    failed cryptographic check all give [SignatureMismatch], and no other
    error can be returned. *)
Theorem verify_request_signature_failures :
  forall (Hd : Type) (HP : HeaderProvider Hd) (now : N) (m h p : string)
         (b : list byte) (headers : Hd) (pk : list byte) (max_age : Duration)
         (loc ts sig_hex : string) (t : N),
    get_header headers header_location = Some loc ->
    get_header headers header_timestamp = Some ts ->
    get_header headers header_signature = Some sig_hex ->
    parse_u64 ts = Some t ->
    (now - t <= as_secs max_age)%N ->
    let msg := as_bytes (build_canonical_string m h p (hash_body b) loc ts) in
    (hex_decode sig_hex = None ->
       verify_request now m h p b headers pk max_age = Err (Signature SignatureMismatch)) /\
    (forall sig : list byte,
       hex_decode sig_hex = Some sig ->
       (length sig <> 64 \/ length pk <> 32 \/ verifying_key_valid pk = false \/
        ed25519_verify pk msg sig = false) ->
       verify_request now m h p b headers pk max_age = Err (Signature SignatureMismatch)) /\
    (forall e : WebIdentityError,
       verify_request now m h p b headers pk max_age = Err e ->
       e = Signature SignatureMismatch).
Proof.
  intros Hd HP now m h p b headers pk max_age loc ts sig_hex t Hl Ht Hs Hp Hf msg.
  pose proof (verify_request_after_headers now m h p b headers pk max_age loc ts sig_hex t
                Hl Ht Hs Hp) as E.
  destruct (as_secs max_age <? now - t)%N eqn:Hlt.
  { apply N.ltb_lt in Hlt. lia. }
  split; [|split].
  - intros Hx. rewrite E, Hx. reflexivity.
  - intros sig Hx Hfail. rewrite E, Hx, verify_signature_cases.
    fold msg.
    destruct Hfail as [Hsig | [Hpk | [Hv | Hc]]].
    + apply Nat.eqb_neq in Hsig. rewrite Hsig. rewrite !andb_false_r. reflexivity.
    + apply Nat.eqb_neq in Hpk. rewrite Hpk. reflexivity.
    + rewrite Hv, andb_false_r. reflexivity.
    + rewrite Hc, andb_false_r. reflexivity.
  - intros e He. rewrite E in He.
    destruct (hex_decode sig_hex) as [sig|].
    + rewrite verify_signature_cases in He.
      destruct (_ && _); congruence.
    + congruence.
Qed.

(** Claim C6.  With the headers present and the timestamp parsed as [t],
    the request fails with [TimestampExpired] exactly when
    [t + max_age < now], i.e. when the saturating difference [now - t]
    exceeds [max_age] in seconds; a timestamp in the future fails, if at
    all, only with [SignatureMismatch]. *)
Theorem verify_request_freshness :
  forall (Hd : Type) (HP : HeaderProvider Hd) (now : N) (m h p : string)
         (b : list byte) (headers : Hd) (pk : list byte) (max_age : Duration)
         (loc ts sig_hex : string) (t : N),
    get_header headers header_location = Some loc ->
    get_header headers header_timestamp = Some ts ->
    get_header headers header_signature = Some sig_hex ->
    parse_u64 ts = Some t ->
    (verify_request now m h p b headers pk max_age = Err (Signature TimestampExpired) <->
     (t + as_secs max_age < now)%N) /\
    ((now < t)%N ->
     forall e : WebIdentityError,
       verify_request now m h p b headers pk max_age = Err e ->
       e = Signature SignatureMismatch).
Proof.
  intros Hd HP now m h p b headers pk max_age loc ts sig_hex t Hl Ht Hs Hp.
  pose proof (verify_request_after_headers now m h p b headers pk max_age loc ts sig_hex t
                Hl Ht Hs Hp) as E.
  rewrite E.
  assert (Hsig : forall e,
             match hex_decode sig_hex with
             | Some sig =>
                 verify_signature pk
                   (as_bytes (build_canonical_string m h p (hash_body b) loc ts)) sig
             | None => Err (Signature SignatureMismatch)
             end = Err e -> e = Signature SignatureMismatch).
  { intros e He. destruct (hex_decode sig_hex) as [sig|].
    - rewrite verify_signature_cases in He. destruct (_ && _); congruence.
    - congruence. }
  destruct (as_secs max_age <? now - t)%N eqn:Hlt.
  - apply N.ltb_lt in Hlt. split.
    + split; [intros _; lia | reflexivity].
    + intros Hfut. lia.
  - apply N.ltb_ge in Hlt. split.
    + split.
      * intros He. apply Hsig in He. discriminate.
      * intros Hc. lia.
    + intros _. exact Hsig.
Qed.

End VerifyTheorems.

(** ** The signer's header map *)

Section SignerTheorems.
Context `{Externals}.

(** Claim C9.  [create_signed_headers] always returns [Ok] with a map whose
    keys are exactly the three [WebIdentity-*] header names, holding the
    location and the decimal timestamp; it has no error branch. *)
Theorem create_signed_headers_total :
  forall (now : N) (loc m h p : string) (b : list byte) (sk : SigningKey),
    exists hs : gmap string string,
      create_signed_headers now loc m h p b sk = Ok hs /\
      (forall k : string,
         is_Some (hs !! k) <->
         k = header_location \/ k = header_timestamp \/ k = header_signature) /\
      hs !! header_location = Some loc /\
      hs !! header_timestamp = Some (u64_to_string now).
Proof.
  intros now loc m h p b sk.
  eexists. split; [reflexivity|]. split; [|split].
  - intros k. rewrite !lookup_insert, lookup_empty.
    repeat case_decide; subst; split; intros Hk;
      try (eexists; reflexivity); try tauto;
      try (destruct Hk as [? Hk]; discriminate);
      try (destruct Hk as [|[|]]; congruence).
  - rewrite !lookup_insert. unfold header_location, header_timestamp, header_signature.
    repeat case_decide; congruence.
  - rewrite !lookup_insert. unfold header_location, header_timestamp, header_signature.
    repeat case_decide; congruence.
Qed.

End SignerTheorems.

(** ** Errors of [get_identity] *)

Section IdentityTheorems.
Context `{Externals}.

(** [get_identity] returns only when lol_html accepts the document, and
    then returns [identity_of_raw] of the collected data. *)
Lemma get_identity_returns (src : Url) (content : string)
    (r : result Identity WebIdentityError) :
  get_identity src content = Returns r ->
  html_rewrite_ok content = true /\ identity_of_raw src (extract (html_elements content)) = r.
Proof.
  unfold get_identity. destruct (html_rewrite_ok content); intros Hr; [|discriminate].
  inversion Hr. split; reflexivity.
Qed.

Lemma get_identity_accepted (src : Url) (content : string) :
  html_rewrite_ok content = true ->
  get_identity src content = Returns (identity_of_raw src (extract (html_elements content))).
Proof. intros Hok. unfold get_identity. rewrite Hok. reflexivity. Qed.

(** The steps of [identity_of_raw] up to the construction of the record. *)
Lemma identity_of_raw_unfold (src : Url) (data : RawIdentityData) :
  identity_of_raw src data =
  match raw_public_key data with
  | None => Err MissingPublicKey
  | Some pk_hex =>
      if negb (starts_with PK_PREFIX pk_hex) then
        Err (InvalidPublicKeyFormat
               ("This server only supports keys that start with '" ++ PK_PREFIX ++ "'."))
      else
      match hex_decode (str_drop (String.length PK_PREFIX) pk_hex) with
      | None => Err (InvalidPublicKeyFormat "Invalid hex encoding.")
      | Some bs =>
          if negb (Nat.eqb (length bs) 32) then Err (InvalidPublicKeyFormat "Wrong key size")
          else if negb (verifying_key_valid bs) then
            Err (InvalidPublicKeyFormat "Not a valid Ed25519 public key.")
          else identity_of_raw src data
      end
  end.
Proof.
  unfold identity_of_raw at 1.
  destruct (raw_public_key data) as [pk_hex|] eqn:Hpk; [|reflexivity].
  cbn [ok_or]. destruct (negb (starts_with PK_PREFIX pk_hex)) eqn:Hpre; [reflexivity|].
  destruct (hex_decode (str_drop (String.length PK_PREFIX) pk_hex)) as [bs|] eqn:Hx;
    [|reflexivity].
  cbn [ok_or]. rewrite as_array_spec.
  destruct (Nat.eqb (length bs) 32) eqn:Hlen; [|reflexivity]. cbn [ok_or negb].
  destruct (verifying_key_valid bs) eqn:Hv; [|reflexivity]. cbn [negb].
  unfold identity_of_raw. rewrite Hpk. cbn [ok_or]. rewrite Hpre, Hx. cbn [ok_or].
  rewrite as_array_spec, Hlen. cbn [ok_or]. rewrite Hv. reflexivity.
Qed.

(** Claim C8.  The only errors [get_identity] returns are
    [MissingPublicKey] and [InvalidPublicKeyFormat]; in particular it
    never returns [MissingDisplayName]. *)
Theorem get_identity_errors :
  forall (src : Url) (content : string) (e : WebIdentityError),
    get_identity src content = Returns (Err e) ->
    (e = MissingPublicKey \/ exists reason, e = InvalidPublicKeyFormat reason) /\
    e <> MissingDisplayName.
Proof.
  intros src content e He. apply get_identity_returns in He as [_ He].
  unfold identity_of_raw in He.
  destruct (raw_public_key (extract (html_elements content))); cbn [ok_or] in He.
  2:{ inversion He; subst. split; [left; reflexivity | discriminate]. }
  destruct (negb (starts_with PK_PREFIX s)).
  { inversion He; subst. split; [right; eexists; reflexivity | discriminate]. }
  destruct (hex_decode (str_drop (String.length PK_PREFIX) s)); cbn [ok_or] in He.
  2:{ inversion He; subst. split; [right; eexists; reflexivity | discriminate]. }
  rewrite as_array_spec in He.
  destruct (Nat.eqb (length l) 32); cbn [ok_or] in He.
  2:{ inversion He; subst. split; [right; eexists; reflexivity | discriminate]. }
  destruct (negb (verifying_key_valid l)).
  - inversion He; subst. split; [right; eexists; reflexivity | discriminate].
  - discriminate.
Qed.

Lemma starts_with_split (p v : string) :
  starts_with p v = true -> v = p ++ str_drop (String.length p) v.
Proof.
  revert v. induction p as [|a p IH]; intros v Hs; [reflexivity|].
  destruct v as [|b v]; [discriminate|].
  cbn [starts_with] in Hs. apply andb_true_iff in Hs as [Hab Hs].
  apply Ascii.eqb_eq in Hab. subst b.
  cbn [String.length str_drop String.append]. f_equal. apply IH, Hs.
Qed.

Lemma str_drop_app (p r : string) : str_drop (String.length p) (p ++ r) = r.
Proof. induction p as [|a p IH]; [destruct r; reflexivity | exact IH]. Qed.

(** Claim C2, which the code breaks.  When lol_html refuses the document
    (strict mode, e.g. [<select><title>]), [get_identity] panics in
    [rewriter.write(..).unwrap()] or [rewriter.end().unwrap()]: it returns
    neither an identity nor an error, whatever the document holds under
    [identity:public-key].  An identity it returns has a 32-byte public
    key that is a valid Ed25519 verifying key; and on a document lol_html
    accepts, an absent recorded value gives [MissingPublicKey], a value
    that lacks the [ed25519-pub:] prefix, is not hex after it, or decodes
    to other than 32 bytes or to an invalid key gives an
    [InvalidPublicKeyFormat] error. *)
Theorem get_identity_public_key :
  forall (src : Url) (content : string),
    let recorded := raw_public_key (extract (html_elements content)) in
    (html_rewrite_ok content = false -> get_identity src content = Panics) /\
    (forall i : Identity,
       get_identity src content = Returns (Ok i) ->
       length (public_key i) = 32 /\ verifying_key_valid (public_key i) = true) /\
    (html_rewrite_ok content = true ->
     (recorded = None -> get_identity src content = Returns (Err MissingPublicKey)) /\
     (forall v : string,
        recorded = Some v -> (forall rest, v <> PK_PREFIX ++ rest) ->
        exists reason,
          get_identity src content = Returns (Err (InvalidPublicKeyFormat reason))) /\
     (forall rest : string,
        recorded = Some (PK_PREFIX ++ rest) -> hex_decode rest = None ->
        exists reason,
          get_identity src content = Returns (Err (InvalidPublicKeyFormat reason))) /\
     (forall (rest : string) (bs : list byte),
        recorded = Some (PK_PREFIX ++ rest) -> hex_decode rest = Some bs ->
        (length bs <> 32 \/ verifying_key_valid bs = false) ->
        exists reason,
          get_identity src content = Returns (Err (InvalidPublicKeyFormat reason)))).
Proof.
  intros src content recorded.
  split; [|split].
  - intros Hno. unfold get_identity. rewrite Hno. reflexivity.
  - intros i Hi. apply get_identity_returns in Hi as [_ Hi].
    unfold identity_of_raw in Hi. fold recorded in Hi.
    destruct recorded as [v|]; cbn [ok_or] in Hi; [|discriminate].
    destruct (negb (starts_with PK_PREFIX v)); [discriminate|].
    destruct (hex_decode (str_drop (String.length PK_PREFIX) v)) as [bs|];
      cbn [ok_or] in Hi; [|discriminate].
    rewrite as_array_spec in Hi.
    destruct (Nat.eqb (length bs) 32) eqn:Hlen; cbn [ok_or] in Hi; [|discriminate].
    destruct (verifying_key_valid bs) eqn:Hv; cbn [negb] in Hi; [|discriminate].
    inversion Hi; subst i. cbn [public_key].
    split; [apply Nat.eqb_eq, Hlen | exact Hv].
  - intros Hok. rewrite (get_identity_accepted src content Hok), identity_of_raw_unfold.
    fold recorded.
    split; [|split; [|split]].
    + intros Hn. rewrite Hn. reflexivity.
    + intros v Hr Hpre. rewrite Hr.
      destruct (starts_with PK_PREFIX v) eqn:Hs.
      * exfalso. apply (Hpre (str_drop (String.length PK_PREFIX) v)).
        apply starts_with_split, Hs.
      * eexists. reflexivity.
    + intros rest Hr Hx. rewrite Hr.
      rewrite starts_with_self, str_drop_app, Hx. eexists. reflexivity.
    + intros rest bs Hr Hx Hbad. rewrite Hr.
      rewrite starts_with_self, str_drop_app, Hx. cbn [negb].
      destruct Hbad as [Hlen | Hv].
      * apply Nat.eqb_neq in Hlen. rewrite Hlen. eexists. reflexivity.
      * destruct (Nat.eqb (length bs) 32); cbn [negb]; rewrite ?Hv; eexists; reflexivity.
Qed.

(** The fields of a constructed identity. *)
Lemma get_identity_ok_fields (src : Url) (content : string) (i : Identity) :
  get_identity src content = Returns (Ok i) ->
  let data := extract (html_elements content) in
  display_name i =
    match filter_nonempty
            (option_or (option_or (option_or (raw_display_name data) (raw_author data))
                                  (raw_og_author data))
                       (raw_og_title data)) with
    | Some s => s
    | None => identity_location src
    end /\
  description i = option_or (raw_description data) (raw_og_description data) /\
  location i = identity_location src.
Proof.
  intros Hi data. apply get_identity_returns in Hi as [_ Hi].
  unfold identity_of_raw in Hi. fold data in Hi.
  destruct (raw_public_key data) as [v|]; cbn [ok_or] in Hi; [|discriminate].
  destruct (negb (starts_with PK_PREFIX v)); [discriminate|].
  destruct (hex_decode (str_drop (String.length PK_PREFIX) v)) as [bs|];
    cbn [ok_or] in Hi; [|discriminate].
  rewrite as_array_spec in Hi.
  destruct (Nat.eqb (length bs) 32); cbn [ok_or] in Hi; [|discriminate].
  destruct (verifying_key_valid bs); cbn [negb] in Hi; [|discriminate].
  inversion Hi; subst i. cbn. split; [|split]; reflexivity.
Qed.

End IdentityTheorems.

(** ** The extraction pass *)

Lemma field_of_set (f g : Field) (v : option string) (r : RawIdentityData) :
  field_of f (set_field g v r) = if decide (g = f) then v else field_of f r.
Proof. destruct f, g; reflexivity. Qed.

Lemma meta_key_field_keys (f : Field) (k : string) :
  match meta_key_field k with Some g => bool_decide (g = f) | None => false end =
  field_keys f k.
Proof.
  unfold meta_key_field.
  repeat match goal with
         | |- context [String.eqb k ?s] =>
             let E := fresh "E" in
             destruct (String.eqb k s) eqn:E;
             [apply String.eqb_eq in E; subst k; destruct f; reflexivity|]
         end.
  destruct f; cbn [field_keys]; rewrite ?E, ?E0, ?E1, ?E2, ?E3, ?E4, ?E5, ?E6, ?E7, ?E8;
    reflexivity.
Qed.

Lemma field_of_handle (f : Field) (d : RawIdentityData) (el : Element) :
  f <> FFavicon ->
  field_of f (handle_element d el) =
  match meta_entry el with
  | Some (k, c) => if field_keys f k then Some c else field_of f d
  | None => field_of f d
  end.
Proof.
  intros Hf. unfold handle_element, meta_entry.
  destruct (String.eqb (el_tag el) "meta").
  - unfold meta_handler.
    destruct (get_attribute el "content") as [c|];
      destruct (option_or (get_attribute el "property") (get_attribute el "name")) as [k|];
      try reflexivity.
    rewrite <- meta_key_field_keys.
    destruct (meta_key_field k) as [g|]; [|reflexivity].
    rewrite field_of_set. destruct (decide (g = f)) as [->|Hne].
    + rewrite bool_decide_eq_true_2 by reflexivity. reflexivity.
    + rewrite bool_decide_eq_false_2 by exact Hne. reflexivity.
  - destruct (String.eqb (el_tag el) "link"); [|reflexivity].
    unfold link_handler.
    destruct (get_attribute el "rel"); [|reflexivity].
    destruct (_ || _); [|reflexivity].
    destruct (get_attribute el "href"); [|reflexivity].
    rewrite field_of_set. destruct (decide (FFavicon = f)); [congruence | reflexivity].
Qed.

Lemma field_of_fold (f : Field) (els : list Element) (d : RawIdentityData) :
  f <> FFavicon ->
  field_of f (fold_left handle_element els d) =
  option_or (last_value (field_keys f) els) (field_of f d).
Proof.
  intros Hf. revert d. induction els as [|el els IH]; intros d; [reflexivity|].
  cbn [fold_left last_value]. rewrite IH.
  destruct (last_value (field_keys f) els); [reflexivity|].
  cbn [option_or]. rewrite field_of_handle by exact Hf.
  destruct (meta_entry el) as [[k c]|]; [|reflexivity].
  destruct (field_keys f k); reflexivity.
Qed.

(** Every slot but the favicon ends with the last meta value of its keys. *)
Lemma field_of_extract (f : Field) (els : list Element) :
  f <> FFavicon -> field_of f (extract els) = last_value (field_keys f) els.
Proof.
  intros Hf. unfold extract. rewrite field_of_fold by exact Hf.
  destruct (last_value (field_keys f) els); destruct f; reflexivity.
Qed.

Section DescriptionTheorems.
Context `{Externals}.

(** Claim C7, as amended.  The plain [description] key is recorded into
    the same slot as [identity:description], so the description of a
    constructed identity is the content of the last meta tag keyed
    [identity:description] or [description], else that of the last
    [og:description] tag, else absent; every other recognised key has a
    slot of its own, where the last occurrence wins. *)
Theorem get_identity_description :
  forall (src : Url) (content : string) (i : Identity),
    get_identity src content = Returns (Ok i) ->
    let els := html_elements content in
    description i =
      option_or (last_value (field_keys FDescription) els)
                (last_value (field_keys FOgDescription) els) /\
    (forall f : Field, f <> FFavicon ->
       field_of f (extract els) = last_value (field_keys f) els).
Proof.
  intros src content i Hi.
  destruct (get_identity_ok_fields src content i Hi) as [_ [Hd _]].
  cbv zeta in Hd |- *. split.
  - rewrite Hd.
    change (option_or (field_of FDescription (extract (html_elements content)))
                      (field_of FOgDescription (extract (html_elements content))) =
            option_or (last_value (field_keys FDescription) (html_elements content))
                      (last_value (field_keys FOgDescription) (html_elements content))).
    rewrite !field_of_extract by discriminate. reflexivity.
  - intros f Hf. apply field_of_extract, Hf.
Qed.

End DescriptionTheorems.

(** Claim C7, refuted as stated.  With a plain [description] tag and an
    [og:description] tag but no [identity:description] tag, the
    description is the plain description, not the first present value
    among [identity:description] and [og:description]. *)
Lemma get_identity_description_counterexample :
  exists i : Identity,
    @get_identity (toy_externals doc_plain_description) sample_url "" = Returns (Ok i) /\
    description i = Some "D" /\
    description i <>
      option_or (last_value (fun k => String.eqb k "identity:description") doc_plain_description)
                (last_value (fun k => String.eqb k "og:description") doc_plain_description).
Proof.
  eexists. split; [reflexivity|]. split; [reflexivity|].
  vm_compute. discriminate.
Qed.

(** Claim C3, at a failing input.  An empty [identity:display-name]
    does not fall through to the [author] value: the display name is the
    location, not ["Alice"]. *)
Lemma get_identity_empty_display_name :
  exists i : Identity,
    @get_identity (toy_externals doc_empty_display_name) sample_url "" = Returns (Ok i) /\
    display_name i = location i /\
    location i = "example.com/me" /\
    display_name i <> "Alice".
Proof.
  eexists. split; [reflexivity|]. split; [reflexivity|]. split; [reflexivity|].
  vm_compute. discriminate.
Qed.

(* ------------------------------------------------------------------ *)
(** ** Witnesses: each theorem applied at a concrete input *)

Lemma canonical_string_layout_witness :
  @verify_request (toy_externals []) _ _ 100%N "post" "example.com" "/v1/messages/" []
    (signed_headers "example.com/me" "90" "00") [] (mkDuration 60 0) =
  @verify_signature (toy_externals []) []
    (as_bytes (@canonical_string_spec (toy_externals []) "post" "example.com"
                 "/v1/messages/" [] "example.com/me" "90")) [x00].
Proof.
  apply (proj1 (proj2 (@canonical_string_layout (toy_externals []))))
    with (loc := "example.com/me") (ts := "90") (sig_hex := "00") (t := 90%N);
    [reflexivity | reflexivity | reflexivity | reflexivity | vm_compute; discriminate
    | reflexivity].
Defined.

Lemma resolve_location_url_scheme_witness :
  @resolve_location_url (toy_externals []) ("ftp" ++ "://" ++ "example.com") =
  Err (UnsupportedProtocol "ftp").
Proof.
  rewrite (proj1 (@resolve_location_url_scheme (toy_externals [])) "ftp" "example.com"
             eq_refl).
  reflexivity.
Defined.

Lemma verify_request_signature_failures_witness :
  @verify_request (toy_externals []) _ _ 100%N "post" "example.com" "/" []
    (signed_headers "example.com/me" "90" "zz") [] (mkDuration 60 0) =
  Err (Signature SignatureMismatch).
Proof.
  apply (proj1 (@verify_request_signature_failures (toy_externals []) _ _ 100%N
           "post" "example.com" "/" [] (signed_headers "example.com/me" "90" "zz") []
           (mkDuration 60 0) "example.com/me" "90" "zz" 90%N
           eq_refl eq_refl eq_refl eq_refl ltac:(vm_compute; discriminate))).
  reflexivity.
Defined.

Lemma verify_request_freshness_witness :
  @verify_request (toy_externals []) _ _ 200%N "post" "example.com" "/" []
    (signed_headers "example.com/me" "90" "00") [] (mkDuration 60 0) =
  Err (Signature TimestampExpired).
Proof.
  apply (proj2 (proj1 (@verify_request_freshness (toy_externals []) _ _ 200%N
           "post" "example.com" "/" [] (signed_headers "example.com/me" "90" "00") []
           (mkDuration 60 0) "example.com/me" "90" "00" 90%N
           eq_refl eq_refl eq_refl eq_refl))).
  vm_compute. reflexivity.
Defined.

Lemma get_identity_errors_witness :
  (MissingPublicKey = MissingPublicKey \/
   exists reason, MissingPublicKey = InvalidPublicKeyFormat reason) /\
  MissingPublicKey <> MissingDisplayName.
Proof.
  apply (@get_identity_errors (toy_externals []) sample_url "").
  reflexivity.
Defined.

Lemma get_identity_public_key_witness :
  @get_identity (strict_externals []) sample_url "<select><title></title></select>" = Panics /\
  exists reason,
    @get_identity (toy_externals [meta "name" "identity:public-key" "ed25519-pub:0102"])
      sample_url "" = Returns (Err (InvalidPublicKeyFormat reason)).
Proof.
  split.
  - apply (proj1 (@get_identity_public_key (strict_externals []) sample_url
                    "<select><title></title></select>")).
    reflexivity.
  - destruct (@get_identity_public_key
               (toy_externals [meta "name" "identity:public-key" "ed25519-pub:0102"])
               sample_url "") as (_ & _ & Hacc).
    destruct (Hacc eq_refl) as (_ & _ & _ & Hbad).
    apply (Hbad "0102" [x01; x02]); [reflexivity | reflexivity | left; discriminate].
Defined.

Lemma get_identity_description_witness :
  @description (match @get_identity (toy_externals doc_plain_description) sample_url "" with
                | Returns (Ok i) => i
                | _ => mkIdentity "" [] "" None None sample_url ""
                end) =
  option_or (last_value (field_keys FDescription) doc_plain_description)
            (last_value (field_keys FOgDescription) doc_plain_description).
Proof.
  apply (proj1 (@get_identity_description (toy_externals doc_plain_description)
                  sample_url "" _ eq_refl)).
Defined.

(* ================================================================== *)
(** * Further properties of the code *)

(** ** Hex encoding and decoding *)

Lemma hex_byte_digits (b : byte) :
  hex_val (hex_digit (Byte.to_nat b / 16)) = Some (Byte.to_nat b / 16) /\
  hex_val (hex_digit (Byte.to_nat b mod 16)) = Some (Byte.to_nat b mod 16) /\
  Byte.of_nat (Byte.to_nat b / 16 * 16 + Byte.to_nat b mod 16) = Some b.
Proof. destruct b; vm_compute; repeat split. Qed.

Lemma hex_decode_encode_id (bs : list byte) : hex_decode (hex_encode bs) = Some bs.
Proof.
  induction bs as [|b bs IH]; [reflexivity|].
  cbn [hex_encode hex_decode].
  destruct (hex_byte_digits b) as [H1 [H2 H3]].
  rewrite H1, H2, IH, H3. reflexivity.
Qed.

(** [hex::decode] inverts [hex::encode]: the signature header written by
    the signer decodes back to the signature bytes. *)
Theorem hex_decode_encode (bs : list byte) : hex_decode (hex_encode bs) = Some bs.
Proof. apply hex_decode_encode_id. Qed.

(** A string [hex::decode] accepts has even length, two digits per byte. *)
Theorem hex_decode_length (s : string) (bs : list byte) :
  hex_decode s = Some bs -> String.length s = 2 * length bs.
Proof.
  revert s bs.
  assert (Hn : forall n s bs, String.length s < n ->
                 hex_decode s = Some bs -> String.length s = 2 * length bs).
  { induction n as [|n IH]; intros s bs Hl Hx; [lia|].
    destruct s as [|h [|l s]]; cbn [hex_decode] in Hx.
    - inversion Hx. reflexivity.
    - discriminate.
    - destruct (hex_val h), (hex_val l); try discriminate.
      destruct (hex_decode s) as [rest|] eqn:Hr; [|discriminate].
      destruct (Byte.of_nat _); [|discriminate].
      inversion Hx; subst bs. cbn [String.length length].
      cbn [String.length] in Hl. rewrite (IH s rest) by (lia || exact Hr). lia. }
  intros s bs. apply (Hn (S (String.length s))). lia.
Qed.

(** ** Decimal timestamps *)

Lemma string_append_assoc (a b c : string) : (a ++ b) ++ c = a ++ (b ++ c).
Proof. induction a as [|x a IH]; [reflexivity|]. cbn. rewrite IH. reflexivity. Qed.

Lemma decimal_go_app (fuel : nat) (n : N) (acc : string) :
  decimal_go fuel n acc = decimal_go fuel n "" ++ acc.
Proof.
  revert n acc. induction fuel as [|fuel IH]; intros n acc; [reflexivity|].
  cbn [decimal_go]. destruct (n <? 10)%N; [reflexivity|].
  rewrite (IH _ (String _ acc)), (IH _ (String _ "")), string_append_assoc.
  reflexivity.
Qed.

Lemma digits_value_app (s t : string) (a : N) :
  digits_value (s ++ t) a =
  match digits_value s a with Some v => digits_value t v | None => None end.
Proof.
  revert a. induction s as [|c s IH]; intros a; [reflexivity|].
  cbn [String.append digits_value].
  destruct (Nat.leb 48 (nat_of_ascii c) && Nat.leb (nat_of_ascii c) 57); [|reflexivity].
  destruct (_ <=? u64_max)%N; [apply IH | reflexivity].
Qed.

(** One digit appended to an accumulator [a]. *)
Lemma digits_value_digit (a m : N) :
  (m < 10)%N -> (a * 10 + m <= u64_max)%N ->
  digits_value (String (ascii_of_nat (48 + N.to_nat m)) "") a = Some (a * 10 + m)%N.
Proof.
  intros Hm Hb. cbn [digits_value].
  rewrite nat_ascii_embedding by lia.
  replace (Nat.leb 48 (48 + N.to_nat m) && Nat.leb (48 + N.to_nat m) 57) with true
    by (symmetry; apply andb_true_iff; split; apply Nat.leb_le; lia).
  replace (48 + N.to_nat m - 48) with (N.to_nat m) by lia.
  rewrite N2Nat.id.
  replace (a * 10 + m <=? u64_max)%N with true by (symmetry; apply N.leb_le; exact Hb).
  reflexivity.
Qed.

Lemma decimal_go_digits (fuel : nat) (n : N) :
  (n < 10 ^ N.of_nat fuel)%N -> (n <= u64_max)%N ->
  digits_value (decimal_go fuel n "") 0 = Some n.
Proof.
  revert n. induction fuel as [|fuel IH]; intros n Hlt Hmax.
  - cbn in Hlt. cbn. f_equal. lia.
  - pose proof (N.div_mod n 10 ltac:(discriminate)) as Hdm.
    pose proof (N.mod_lt n 10 ltac:(discriminate)) as Hmod.
    cbn [decimal_go]. destruct (n <? 10)%N eqn:Hs.
    + apply N.ltb_lt in Hs. rewrite digits_value_digit by lia.
      f_equal. rewrite N.mod_small by exact Hs. lia.
    + apply N.ltb_ge in Hs.
      rewrite decimal_go_app, digits_value_app.
      rewrite IH.
      * rewrite digits_value_digit by lia. f_equal. lia.
      * rewrite Nat2N.inj_succ, N.pow_succ_r' in Hlt.
        apply N.Div0.div_lt_upper_bound; lia.
      * pose proof (N.Div0.div_le_upper_bound n 10 n ltac:(lia)). lia.
Qed.

Lemma size_nat_bound (n : N) : (n < 2 ^ N.of_nat (N.size_nat n))%N.
Proof.
  destruct n as [|p]; [reflexivity|]. cbn [N.size_nat].
  induction p as [p IH|p IH|].
  - cbn [Pos.size_nat]. rewrite Nat2N.inj_succ, N.pow_succ_r'.
    change (N.pos p~1) with (2 * N.pos p + 1)%N. lia.
  - cbn [Pos.size_nat]. rewrite Nat2N.inj_succ, N.pow_succ_r'.
    change (N.pos p~0) with (2 * N.pos p)%N. lia.
  - reflexivity.
Qed.

Lemma u64_to_string_digits (n : N) :
  (n <= u64_max)%N -> digits_value (u64_to_string n) 0 = Some n.
Proof.
  intros Hmax. unfold u64_to_string. apply decimal_go_digits; [|exact Hmax].
  pose proof (size_nat_bound n).
  assert (2 ^ N.of_nat (N.size_nat n) <= 10 ^ N.of_nat (N.size_nat n))%N
    by (apply N.pow_le_mono_l; lia).
  rewrite Nat2N.inj_succ, N.pow_succ_r'. lia.
Qed.

Lemma digits_value_not_plus (c : ascii) (s : string) (a v : N) :
  digits_value (String c s) a = Some v -> Ascii.eqb c "+"%char = false.
Proof.
  intros Hd. destruct (Ascii.eqb c "+"%char) eqn:E; [|reflexivity].
  apply Ascii.eqb_eq in E. subst c. discriminate.
Qed.

Lemma parse_u64_to_string_id (n : N) :
  (n <= u64_max)%N -> parse_u64 (u64_to_string n) = Some n.
Proof.
  intros Hmax. pose proof (u64_to_string_digits n Hmax) as Hd.
  destruct (u64_to_string n) as [|c s] eqn:E.
  - unfold u64_to_string in E. cbn [decimal_go] in E.
    destruct (n <? 10)%N; [discriminate|].
    rewrite decimal_go_app in E. destruct (decimal_go _ _ ""); discriminate.
  - cbn [parse_u64]. rewrite (digits_value_not_plus c s 0 n Hd). exact Hd.
Qed.

(** [u64::to_string] then [str::parse::<u64>] gives the number back: the
    timestamp header the signer writes always parses in the verifier. *)
Theorem parse_u64_to_string (n : N) :
  (n <= u64_max)%N -> parse_u64 (u64_to_string n) = Some n.
Proof. apply parse_u64_to_string_id. Qed.

Lemma digits_value_bound (s : string) (a v : N) :
  (a <= u64_max)%N -> digits_value s a = Some v -> (v <= u64_max)%N.
Proof.
  revert a. induction s as [|c s IH]; intros a Ha Hd.
  - inversion Hd. subst. exact Ha.
  - cbn [digits_value] in Hd.
    destruct (_ && _); [|discriminate].
    destruct (_ <=? u64_max)%N eqn:Hb; [|discriminate].
    apply N.leb_le in Hb. exact (IH _ Hb Hd).
Qed.

(** Every timestamp the verifier accepts fits in a u64. *)
Lemma parse_u64_le_max (s : string) (n : N) :
  parse_u64 s = Some n -> (n <= u64_max)%N.
Proof.
  intros Hp. destruct s as [|c s]; [discriminate|]. cbn [parse_u64] in Hp.
  assert (H0 : (0 <= u64_max)%N) by lia.
  destruct (Ascii.eqb c "+"%char).
  - destruct s; [discriminate|]. exact (digits_value_bound _ 0 n H0 Hp).
  - exact (digits_value_bound _ 0 n H0 Hp).
Qed.

Lemma decimal_value_from_ge (acc : N) (s : string) : (acc <= decimal_value_from acc s)%N.
Proof.
  revert acc. induction s as [|c s IH]; intros acc; cbn [decimal_value_from]; [lia|].
  specialize (IH (acc * 10 + N.of_nat (nat_of_ascii c - 48))%N). lia.
Qed.

Lemma digits_value_all_digits (s : string) (acc : N) :
  (acc <= u64_max)%N -> all_digits s = true ->
  digits_value s acc =
  if (decimal_value_from acc s <=? u64_max)%N then Some (decimal_value_from acc s) else None.
Proof.
  revert acc. induction s as [|c s IH]; intros acc Ha Hd.
  - cbn [digits_value decimal_value_from]. apply N.leb_le in Ha. rewrite Ha. reflexivity.
  - cbn [all_digits] in Hd. apply andb_true_iff in Hd as [Hc Hd].
    cbn [digits_value decimal_value_from]. rewrite Hc.
    destruct (acc * 10 + N.of_nat (nat_of_ascii c - 48) <=? u64_max)%N eqn:Hb.
    + apply N.leb_le in Hb. exact (IH _ Hb Hd).
    + apply N.leb_gt in Hb.
      pose proof (decimal_value_from_ge (acc * 10 + N.of_nat (nat_of_ascii c - 48))%N s).
      destruct (decimal_value_from _ s <=? u64_max)%N eqn:E; [|reflexivity].
      apply N.leb_le in E. lia.
Qed.

(** [parse::<u64>] returns only values up to [u64::MAX]; on a non-empty
    string of decimal digits, with or without a leading [+], it returns
    the value of the digits when that is at most [u64::MAX] and fails when
    it is larger (it does not wrap around). *)
Theorem parse_u64_digits :
  (forall (t : string) (n : N), parse_u64 t = Some n -> (n <= u64_max)%N) /\
  (forall s : string,
     s <> "" -> all_digits s = true ->
     parse_u64 s =
       (if (decimal_value s <=? u64_max)%N then Some (decimal_value s) else None) /\
     parse_u64 ("+" ++ s) = parse_u64 s).
Proof.
  split; [exact parse_u64_le_max|].
  intros s Hne Hd. destruct s as [|c s]; [congruence|].
  assert (H0 : (0 <= u64_max)%N) by lia.
  assert (Hp : Ascii.eqb c "+"%char = false).
  { destruct (Ascii.eqb c "+"%char) eqn:E; [|reflexivity].
    apply Ascii.eqb_eq in E. subst c. discriminate. }
  assert (Hs : parse_u64 (String c s) = digits_value (String c s) 0)
    by (cbn [parse_u64]; rewrite Hp; reflexivity).
  split.
  - rewrite Hs. exact (digits_value_all_digits _ 0 H0 Hd).
  - rewrite Hs. reflexivity.
Qed.

(** ** Signing and verifying *)

Section RoundTrip.
Context `{Externals}.

Lemma signed_headers_lookup (loc ts sig : string) :
  get_header (signed_headers loc ts sig) header_location = Some loc /\
  get_header (signed_headers loc ts sig) header_timestamp = Some ts /\
  get_header (signed_headers loc ts sig) header_signature = Some sig.
Proof.
  unfold get_header, SimpleHeaderProvider, signed_headers.
  rewrite !lookup_insert. unfold header_location, header_timestamp, header_signature.
  repeat case_decide; try congruence. repeat split.
Qed.

(** A request signed by [create_signed_headers] at time [now] verifies at
    any time [now'] with [now' - now <= max_age], for the same method,
    host, path and body, when the verifier's public key matches the
    signing key (Ed25519 signatures of that key are 64 bytes and verify
    under it). *)
Theorem create_then_verify :
  forall (now now' : N) (loc m h p : string) (b : list byte) (sk : SigningKey)
         (pk : list byte) (max_age : Duration) (hs : gmap string string),
    (now <= u64_max)%N ->
    (now' - now <= as_secs max_age)%N ->
    length pk = 32 -> verifying_key_valid pk = true ->
    (forall msg, length (ed25519_sign (sk_bytes sk) msg) = 64 /\
                 ed25519_verify pk msg (ed25519_sign (sk_bytes sk) msg) = true) ->
    create_signed_headers now loc m h p b sk = Ok hs ->
    verify_request now' m h p b hs pk max_age = Ok tt.
Proof.
  intros now now' loc m h p b sk pk max_age hs Hmax Hfresh Hlen Hvalid Hkey Hc.
  unfold create_signed_headers in Hc. inversion Hc; subst hs. clear Hc.
  set (canon := build_canonical_string m h p (hash_body b) loc (u64_to_string now)).
  set (sig := ed25519_sign (sk_bytes sk) (as_bytes canon)).
  destruct (signed_headers_lookup loc (u64_to_string now) (hex_encode sig))
    as [Hl [Ht Hs]].
  rewrite (verify_request_after_headers now' m h p b _ pk max_age loc
             (u64_to_string now) (hex_encode sig) now Hl Ht Hs
             (parse_u64_to_string_id now Hmax)).
  destruct (as_secs max_age <? now' - now)%N eqn:E; [apply N.ltb_lt in E; lia|].
  rewrite hex_decode_encode_id, verify_signature_cases.
  destruct (Hkey (as_bytes canon)) as [Hsl Hv]. fold sig in Hsl, Hv. fold canon.
  rewrite Hv, Hvalid, Hsl, Hlen. reflexivity.
Qed.

(** The verifier reads the headers in the order location, timestamp,
    signature and reports the first one missing; with all three present, a
    timestamp that does not parse as a u64 gives [InvalidTimestamp] with
    the header's text. *)
Theorem verify_request_header_errors :
  forall (Hd : Type) (HP : HeaderProvider Hd) (now : N) (m h p : string)
         (b : list byte) (headers : Hd) (pk : list byte) (max_age : Duration),
    (get_header headers header_location = None ->
     verify_request now m h p b headers pk max_age =
     Err (Signature (MissingHeader "WebIdentity-Location"))) /\
    (forall loc, get_header headers header_location = Some loc ->
     get_header headers header_timestamp = None ->
     verify_request now m h p b headers pk max_age =
     Err (Signature (MissingHeader "WebIdentity-Timestamp"))) /\
    (forall loc ts, get_header headers header_location = Some loc ->
     get_header headers header_timestamp = Some ts ->
     get_header headers header_signature = None ->
     verify_request now m h p b headers pk max_age =
     Err (Signature (MissingHeader "WebIdentity-Signature"))) /\
    (forall loc ts sig_hex, get_header headers header_location = Some loc ->
     get_header headers header_timestamp = Some ts ->
     get_header headers header_signature = Some sig_hex ->
     parse_u64 ts = None ->
     verify_request now m h p b headers pk max_age =
     Err (Signature (InvalidTimestamp ts))).
Proof.
  intros Hd HP now m h p b headers pk max_age.
  unfold verify_request.
  split; [|split; [|split]].
  - intros Hl. rewrite Hl. reflexivity.
  - intros loc Hl Ht. rewrite Hl, Ht. reflexivity.
  - intros loc ts Hl Ht Hs. rewrite Hl, Ht, Hs. reflexivity.
  - intros loc ts sig_hex Hl Ht Hs Hp. rewrite Hl, Ht, Hs. cbn [ok_or]. rewrite Hp.
    reflexivity.
Qed.

(** A successful verification means: the three headers were present, the
    timestamp parsed and was fresh, the signature header was hex of a
    64-byte signature, the public key was a valid 32-byte key, and the
    signature verifies over the canonical string of the request. *)
Theorem verify_request_ok :
  forall (Hd : Type) (HP : HeaderProvider Hd) (now : N) (m h p : string)
         (b : list byte) (headers : Hd) (pk : list byte) (max_age : Duration),
    verify_request now m h p b headers pk max_age = Ok tt ->
    exists loc ts sig_hex t sig,
      get_header headers header_location = Some loc /\
      get_header headers header_timestamp = Some ts /\
      get_header headers header_signature = Some sig_hex /\
      parse_u64 ts = Some t /\
      (now - t <= as_secs max_age)%N /\
      hex_decode sig_hex = Some sig /\
      length pk = 32 /\ verifying_key_valid pk = true /\ length sig = 64 /\
      ed25519_verify pk (as_bytes (build_canonical_string m h p (hash_body b) loc ts)) sig
      = true.
Proof.
  intros Hd HP now m h p b headers pk max_age Hok.
  destruct (get_header headers header_location) as [loc|] eqn:Hl;
    [|unfold verify_request in Hok; rewrite Hl in Hok; discriminate].
  destruct (get_header headers header_timestamp) as [ts|] eqn:Ht;
    [|unfold verify_request in Hok; rewrite Hl, Ht in Hok; discriminate].
  destruct (get_header headers header_signature) as [sig_hex|] eqn:Hs;
    [|unfold verify_request in Hok; rewrite Hl, Ht, Hs in Hok; discriminate].
  destruct (parse_u64 ts) as [t|] eqn:Hp;
    [|unfold verify_request in Hok; rewrite Hl, Ht, Hs in Hok; cbn [ok_or] in Hok;
      rewrite Hp in Hok; discriminate].
  rewrite (verify_request_after_headers now m h p b headers pk max_age loc ts sig_hex t
             Hl Ht Hs Hp) in Hok.
  destruct (as_secs max_age <? now - t)%N eqn:E; [discriminate|].
  apply N.ltb_ge in E.
  destruct (hex_decode sig_hex) as [sig|] eqn:Hx; [|discriminate].
  rewrite verify_signature_cases in Hok.
  destruct (Nat.eqb (length pk) 32) eqn:H1; [|discriminate].
  destruct (verifying_key_valid pk) eqn:H2; [|discriminate].
  destruct (Nat.eqb (length sig) 64) eqn:H3; [|discriminate].
  destruct (ed25519_verify _ _ _) eqn:H4; [|discriminate].
  exists loc, ts, sig_hex, t, sig.
  apply Nat.eqb_eq in H1, H3. repeat split; assumption.
Qed.

(** [sign_bytes] refuses a secret key that is not 32 bytes with
    [SignatureMismatch]; a 32-byte key it accepts, returning the Ed25519
    signature, and that signature passes [verify_signature] under a
    matching public key. *)
Theorem sign_bytes_verify :
  forall (sk pk msg : list byte),
    (length sk <> 32 -> sign_bytes sk msg = Err (Signature SignatureMismatch)) /\
    (length sk = 32 -> sign_bytes sk msg = Ok (ed25519_sign sk msg)) /\
    (length sk = 32 -> length pk = 32 -> verifying_key_valid pk = true ->
     length (ed25519_sign sk msg) = 64 ->
     ed25519_verify pk msg (ed25519_sign sk msg) = true ->
     exists sig, sign_bytes sk msg = Ok sig /\ verify_signature pk msg sig = Ok tt).
Proof.
  intros sk pk msg. unfold sign_bytes. rewrite as_array_spec. split; [|split].
  - intros Hl. apply Nat.eqb_neq in Hl. rewrite Hl. reflexivity.
  - intros Hl. apply Nat.eqb_eq in Hl. rewrite Hl. reflexivity.
  - intros Hl Hpk Hv Hsl Hver. apply Nat.eqb_eq in Hl. rewrite Hl. cbn [ok_or].
    exists (ed25519_sign sk msg). split; [reflexivity|].
    rewrite verify_signature_cases, Hv, Hsl, Hver, Hpk. reflexivity.
Qed.

End RoundTrip.

(** ** The identity record *)

Section IdentityRecord.
Context `{Externals}.

(** The record [get_identity] builds once the key checks pass. *)
Lemma get_identity_ok_record (src : Url) (content : string) (i : Identity) :
  get_identity src content = Returns (Ok i) ->
  let data := extract (html_elements content) in
  exists v bs,
    raw_public_key data = Some v /\ starts_with PK_PREFIX v = true /\
    hex_decode (str_drop (String.length PK_PREFIX) v) = Some bs /\
    i = {| id := hex_encode (sha256 bs);
           public_key := bs;
           display_name :=
             match filter_nonempty
                     (option_or (option_or (option_or (raw_display_name data)
                                                      (raw_author data))
                                           (raw_og_author data))
                                (raw_og_title data)) with
             | Some s => s
             | None => identity_location src
             end;
           avatar :=
             match option_or (option_or (raw_avatar data) (raw_og_image data))
                             (raw_favicon data) with
             | Some href => result_ok (url_join src href)
             | None => None
             end;
           description := option_or (raw_description data) (raw_og_description data);
           location_url := src;
           location := identity_location src |}.
Proof.
  intros Hi data. apply get_identity_returns in Hi as [_ Hi].
  unfold identity_of_raw in Hi. fold data in Hi.
  destruct (raw_public_key data) as [v|] eqn:Hv; cbn [ok_or] in Hi; [|discriminate].
  destruct (starts_with PK_PREFIX v) eqn:Hs; cbn [negb] in Hi; [|discriminate].
  destruct (hex_decode (str_drop (String.length PK_PREFIX) v)) as [bs|] eqn:Hx;
    cbn [ok_or] in Hi; [|discriminate].
  rewrite as_array_spec in Hi.
  destruct (Nat.eqb (length bs) 32); cbn [ok_or] in Hi; [|discriminate].
  destruct (verifying_key_valid bs); cbn [negb] in Hi; [|discriminate].
  inversion Hi as [Hrec]. subst i. exists v, bs. repeat split; assumption.
Qed.

(** The public key of an identity is the hex after [ed25519-pub:] in the
    last meta tag keyed [identity:public-key], and its id is the hex of
    the SHA-256 of those key bytes; the source URL is kept as given. *)
Theorem get_identity_key_and_id :
  forall (src : Url) (content : string) (i : Identity),
    get_identity src content = Returns (Ok i) ->
    exists rest,
      last_value (field_keys FPublicKey) (html_elements content) = Some (PK_PREFIX ++ rest) /\
      hex_decode rest = Some (public_key i) /\
      id i = hex_encode (sha256 (public_key i)) /\
      location_url i = src.
Proof.
  intros src content i Hi.
  destruct (get_identity_ok_record src content i Hi) as (v & bs & Hv & Hs & Hx & ->).
  exists (str_drop (String.length PK_PREFIX) v). cbn [public_key id location_url].
  rewrite <- (starts_with_split PK_PREFIX v Hs).
  change (raw_public_key (extract (html_elements content)))
    with (field_of FPublicKey (extract (html_elements content))) in Hv.
  rewrite field_of_extract in Hv by discriminate.
  repeat split; assumption.
Qed.

Lemma trim_end_matches_no_trailing (c : ascii) (s pre : string) :
  trim_end_matches c s <> pre ++ String c "".
Proof.
  revert pre. induction s as [|a s IH]; intros pre Heq.
  - destruct pre; discriminate.
  - cbn [trim_end_matches] in Heq.
    destruct (trim_end_matches c s) as [|x r] eqn:Hr.
    + destruct (Ascii.eqb a c) eqn:E.
      * destruct pre; discriminate.
      * destruct pre as [|y [|z pre]]; cbn in Heq.
        -- inversion Heq. subst. rewrite Ascii.eqb_refl in E. discriminate.
        -- inversion Heq.
        -- inversion Heq.
    + destruct pre as [|y pre]; cbn in Heq.
      * inversion Heq.
      * inversion Heq; subst. apply (IH pre). try rewrite Hr. assumption.
Qed.

(** The location of an identity is the source URL's host followed by its
    path, with every trailing slash removed: it never ends in ['/']. *)
Theorem get_identity_location :
  forall (src : Url) (content : string) (i : Identity),
    get_identity src content = Returns (Ok i) ->
    location i =
      trim_end_matches slash
        ((match host_str src with Some h => h | None => "" end) ++ url_path src) /\
    (forall pre : string, location i <> pre ++ "/").
Proof.
  intros src content i Hi.
  destruct (get_identity_ok_record src content i Hi) as (v & bs & _ & _ & _ & ->).
  cbn [location]. split; [reflexivity|].
  intros pre. apply trim_end_matches_no_trailing.
Qed.

(** The display name is computed from the first PRESENT value among
    [identity:display-name], [author], [og:author], [og:title] (each the
    last tag of that key); when that value is empty, or none is present,
    it is the location.  So the display name is empty only when the
    location is. *)
Theorem get_identity_display_name :
  forall (src : Url) (content : string) (i : Identity),
    get_identity src content = Returns (Ok i) ->
    let els := html_elements content in
    display_name i =
      match option_or (option_or (option_or (last_value (field_keys FDisplayName) els)
                                            (last_value (field_keys FAuthor) els))
                                 (last_value (field_keys FOgAuthor) els))
                      (last_value (field_keys FOgTitle) els) with
      | Some s => if String.eqb s "" then location i else s
      | None => location i
      end /\
    (display_name i = "" -> location i = "").
Proof.
  intros src content i Hi.
  destruct (get_identity_ok_record src content i Hi) as (v & bs & _ & _ & _ & ->).
  cbv zeta. cbn [display_name location].
  set (els := html_elements content).
  rewrite <- !(field_of_extract _ els) by discriminate.
  cbn [field_of].
  destruct (option_or _ _) as [s|]; cbn [filter_nonempty]; [|split; auto].
  destruct (String.eqb s "") eqn:E; split; auto.
  intros ->. discriminate.
Qed.

Lemma raw_favicon_handle (d : RawIdentityData) (el : Element) :
  raw_favicon (handle_element d el) =
  option_or (if String.eqb (el_tag el) "link" then
               match get_attribute el "rel" with
               | Some r => if String.eqb r "icon" || String.eqb r "shortcut icon"
                           then get_attribute el "href" else None
               | None => None
               end
             else None)
            (raw_favicon d).
Proof.
  unfold handle_element. destruct (String.eqb (el_tag el) "meta") eqn:Em.
  - apply String.eqb_eq in Em. rewrite Em. cbn [String.eqb option_or].
    unfold meta_handler.
    destruct (get_attribute el "content") as [c|]; [|reflexivity].
    destruct (option_or (get_attribute el "property") (get_attribute el "name")) as [k|];
      [|reflexivity].
    pose proof (meta_key_field_keys FFavicon k) as Hk.
    destruct (meta_key_field k) as [g|]; [|reflexivity].
    change (raw_favicon (set_field g (Some c) d))
      with (field_of FFavicon (set_field g (Some c) d)).
    rewrite field_of_set. destruct (decide (g = FFavicon)) as [->|]; [|reflexivity].
    rewrite bool_decide_eq_true_2 in Hk by reflexivity. discriminate.
  - destruct (String.eqb (el_tag el) "link"); [|reflexivity].
    unfold link_handler.
    destruct (get_attribute el "rel"); [|reflexivity].
    destruct (_ || _); [|reflexivity].
    destruct (get_attribute el "href"); reflexivity.
Qed.

Lemma raw_favicon_fold (els : list Element) (d : RawIdentityData) :
  raw_favicon (fold_left handle_element els d) =
  option_or (last_icon_href els) (raw_favicon d).
Proof.
  revert d. induction els as [|el els IH]; intros d; [reflexivity|].
  cbn [fold_left last_icon_href]. rewrite IH, raw_favicon_handle.
  destruct (last_icon_href els); [reflexivity|]. cbn [option_or].
  destruct (if String.eqb (el_tag el) "link" then _ else None); reflexivity.
Qed.

(** [identity_of_raw] builds a record exactly when the recorded key
    passes the four checks. *)
Lemma identity_of_raw_ok_iff (src : Url) (data : RawIdentityData) :
  (exists i, identity_of_raw src data = Ok i) <->
  exists v bs,
    raw_public_key data = Some v /\ starts_with PK_PREFIX v = true /\
    hex_decode (str_drop (String.length PK_PREFIX) v) = Some bs /\
    length bs = 32 /\ verifying_key_valid bs = true.
Proof.
  split.
  - intros [i Hi]. unfold identity_of_raw in Hi.
    destruct (raw_public_key data) as [v|]; cbn [ok_or] in Hi; [|discriminate].
    destruct (starts_with PK_PREFIX v) eqn:Hs; cbn [negb] in Hi; [|discriminate].
    destruct (hex_decode (str_drop (String.length PK_PREFIX) v)) as [bs|] eqn:Hx;
      cbn [ok_or] in Hi; [|discriminate].
    rewrite as_array_spec in Hi.
    destruct (Nat.eqb (length bs) 32) eqn:Hl; cbn [ok_or] in Hi; [|discriminate].
    destruct (verifying_key_valid bs) eqn:Hv; cbn [negb] in Hi; [|discriminate].
    exists v, bs. apply Nat.eqb_eq in Hl. repeat split; assumption.
  - intros (v & bs & Hv & Hs & Hx & Hl & Hval).
    unfold identity_of_raw. rewrite Hv. cbn [ok_or]. rewrite Hs. cbn [negb].
    rewrite Hx. cbn [ok_or]. rewrite as_array_spec.
    apply Nat.eqb_eq in Hl. rewrite Hl. cbn [ok_or]. rewrite Hval. cbn [negb].
    eexists. reflexivity.
Qed.

(** The avatar is the first present value among the last [identity:avatar]
    tag, the last [og:image] tag and the [href] of the last [link] tag
    with [rel] [icon] or [shortcut icon], joined to the source URL; when
    the join fails the avatar is absent.  Whether [get_identity] returns
    an identity does not depend on the avatar: it does exactly when lol_html
    accepts the document and the last [identity:public-key] value is
    [ed25519-pub:] followed by the hex of a valid 32-byte key, so a failing
    join never makes it fail. *)
Theorem get_identity_avatar :
  forall (src : Url) (content : string),
    let els := html_elements content in
    (forall i : Identity,
       get_identity src content = Returns (Ok i) ->
       avatar i =
         match option_or (option_or (last_value (field_keys FAvatar) els)
                                    (last_value (field_keys FOgImage) els))
                         (last_icon_href els) with
         | Some href => match url_join src href with Ok u => Some u | Err _ => None end
         | None => None
         end) /\
    ((exists i, get_identity src content = Returns (Ok i)) <->
     html_rewrite_ok content = true /\
     exists rest bs,
       last_value (field_keys FPublicKey) els = Some (PK_PREFIX ++ rest) /\
       hex_decode rest = Some bs /\ length bs = 32 /\ verifying_key_valid bs = true).
Proof.
  intros src content els. split.
  - intros i Hi.
    destruct (get_identity_ok_record src content i Hi) as (v & bs & _ & _ & _ & ->).
    cbv zeta. cbn [avatar]. unfold els.
    set (els' := html_elements content).
    rewrite <- !(field_of_extract _ els') by discriminate.
    cbn [field_of].
    replace (last_icon_href els') with (raw_favicon (extract els'))
      by (unfold extract; rewrite raw_favicon_fold; destruct (last_icon_href els');
          reflexivity).
    destruct (option_or _ _); [|reflexivity].
    unfold result_ok. reflexivity.
  - assert (Hpk : raw_public_key (extract els) = last_value (field_keys FPublicKey) els).
    { change (raw_public_key (extract els)) with (field_of FPublicKey (extract els)).
      apply field_of_extract. discriminate. }
    split.
    + intros [i Hi]. apply get_identity_returns in Hi as [Hok Hi].
      split; [exact Hok|].
      destruct (proj1 (identity_of_raw_ok_iff src (extract els)) (ex_intro _ i Hi))
        as (v & bs & Hv & Hs & Hx & Hl & Hval).
      exists (str_drop (String.length PK_PREFIX) v), bs.
      rewrite <- Hpk, Hv, <- (starts_with_split PK_PREFIX v Hs).
      repeat split; assumption.
    + intros (Hok & rest & bs & Hv & Hx & Hl & Hval).
      rewrite (get_identity_accepted src content Hok).
      destruct (proj2 (identity_of_raw_ok_iff src (extract els)))
        as [i Hi].
      { exists (PK_PREFIX ++ rest), bs.
        rewrite Hpk, Hv, starts_with_self, str_drop_app.
        repeat split; assumption. }
      exists i. fold els. rewrite Hi. reflexivity.
Qed.

End IdentityRecord.

Section ResolveOutcomes.
Context `{Externals}.

(** [resolve_location_url] returns [Url::parse] of the location itself,
    with a parse error mapped to [UrlParse], when the location contains
    ["://"] and its scheme is [http] or [https]; and [Url::parse] of
    ["https://"] followed by the location when it contains no ["://"].  So
    an [Ok] comes from one of these two parses, and its only errors are URL
    parse errors and [UnsupportedProtocol] of a scheme other than [http]
    and [https]. *)
Theorem resolve_location_url_outcomes :
  forall location : string,
    (contains "://" location = true ->
     (split_first "://" location = "http" \/ split_first "://" location = "https") ->
     resolve_location_url location =
       match url_parse location with Ok u => Ok u | Err pe => Err (UrlParse pe) end) /\
    (contains "://" location = false ->
     resolve_location_url location =
       match url_parse ("https://" ++ location) with
       | Ok u => Ok u
       | Err pe => Err (UrlParse pe)
       end) /\
    (forall u : Url,
       resolve_location_url location = Ok u ->
       (contains "://" location = true /\
        (split_first "://" location = "http" \/ split_first "://" location = "https") /\
        url_parse location = Ok u) \/
       (contains "://" location = false /\ url_parse ("https://" ++ location) = Ok u)) /\
    (forall e : WebIdentityError,
       resolve_location_url location = Err e ->
       (exists pe, e = UrlParse pe) \/
       (exists scheme, e = UnsupportedProtocol scheme /\
                       scheme <> "http" /\ scheme <> "https")).
Proof.
  intros location. unfold resolve_location_url.
  destruct (contains "://" location) eqn:Hc.
  - destruct (String.eqb (split_first "://" location) "http" ||
              String.eqb (split_first "://" location) "https") eqn:Es.
    + apply orb_true_iff in Es.
      assert (Hs : split_first "://" location = "http" \/
                   split_first "://" location = "https")
        by (destruct Es as [E|E]; apply String.eqb_eq in E; [left|right]; exact E).
      split; [|split; [|split]].
      * intros _ _. destruct (url_parse location); reflexivity.
      * discriminate.
      * intros u Hr. left. split; [reflexivity|]. split; [exact Hs|].
        destruct (url_parse location); cbn [map_err] in Hr; congruence.
      * intros e Hr. left.
        destruct (url_parse location) as [|pe]; cbn [map_err] in Hr; [discriminate|].
        exists pe. congruence.
    + apply orb_false_iff in Es as [E1 E2].
      apply String.eqb_neq in E1, E2.
      split; [|split; [|split]].
      * intros _ [Hs|Hs]; congruence.
      * discriminate.
      * intros ? Hr. discriminate.
      * intros ? Hr. right. exists (split_first "://" location).
        split; [congruence | split; assumption].
  - split; [|split; [|split]].
    + discriminate.
    + intros _. destruct (url_parse ("https://" ++ location)); reflexivity.
    + intros u Hr. right. split; [reflexivity|].
      destruct (url_parse ("https://" ++ location)); cbn [map_err] in Hr; congruence.
    + intros e Hr. left.
      destruct (url_parse ("https://" ++ location)) as [|pe]; cbn [map_err] in Hr;
        [discriminate|].
      exists pe. congruence.
Qed.

End ResolveOutcomes.

(* ------------------------------------------------------------------ *)
(** ** Witnesses of the further properties *)

Lemma bytes_eqb_refl (l : list byte) : bytes_eqb l l = true.
Proof. induction l as [|x l IH]; [reflexivity|]. cbn. rewrite (Byte.byte_dec_lb eq_refl). exact IH. Qed.

Lemma hex_decode_length_witness : String.length "0aff" = 2 * length [x0a; xff].
Proof. apply (hex_decode_length "0aff" [x0a; xff]). reflexivity. Defined.

Lemma parse_u64_to_string_witness : parse_u64 (u64_to_string 1700000000%N) = Some 1700000000%N.
Proof. apply parse_u64_to_string. vm_compute. discriminate. Defined.

Lemma parse_u64_digits_witness :
  parse_u64 "18446744073709551616" = None /\
  parse_u64 ("+" ++ "18446744073709551616") = parse_u64 "18446744073709551616".
Proof.
  apply (proj2 parse_u64_digits "18446744073709551616"); [discriminate | reflexivity].
Defined.

(** The demo headers were signed for path [/v1/messages]; the verifier
    sees [/v1/messages/], which has the same canonical string. *)
Lemma create_then_verify_witness :
  @verify_request (toy_externals []) _ _ 130%N "POST" "example.com" "/v1/messages/"
    (as_bytes "hello") demo_headers demo_key_bytes (mkDuration 60 0) = Ok tt.
Proof.
  apply (@create_then_verify (toy_externals []) 100%N 130%N "amy.carroted.org" "POST"
           "example.com" "/v1/messages/" (as_bytes "hello") demo_signing_key
           demo_key_bytes (mkDuration 60 0)).
  - vm_compute. discriminate.
  - vm_compute. discriminate.
  - reflexivity.
  - reflexivity.
  - intros msg. cbn [ed25519_sign ed25519_verify toy_externals sk_bytes demo_signing_key].
    split; [|apply bytes_eqb_refl].
    unfold toy_sign. rewrite length_firstn, !length_app, repeat_length. lia.
  - reflexivity.
Defined.

Lemma verify_request_header_errors_witness :
  @verify_request (toy_externals []) _ _ 100%N "POST" "example.com" "/" []
    (∅ : gmap string string) [] (mkDuration 60 0) =
  Err (Signature (MissingHeader "WebIdentity-Location")).
Proof.
  apply (proj1 (@verify_request_header_errors (toy_externals []) _ _ 100%N "POST"
                  "example.com" "/" [] ∅ [] (mkDuration 60 0))).
  reflexivity.
Defined.

Lemma verify_request_ok_witness :
  exists loc ts sig_hex t sig,
    get_header demo_headers header_location = Some loc /\
    get_header demo_headers header_timestamp = Some ts /\
    get_header demo_headers header_signature = Some sig_hex /\
    parse_u64 ts = Some t /\
    (100 - t <= as_secs (mkDuration 60 0))%N /\
    hex_decode sig_hex = Some sig /\
    length demo_key_bytes = 32 /\
    @verifying_key_valid (toy_externals []) demo_key_bytes = true /\
    length sig = 64 /\
    @ed25519_verify (toy_externals []) demo_key_bytes
      (as_bytes (@build_canonical_string (toy_externals []) "POST" "example.com"
                   "/v1/messages" (@hash_body (toy_externals []) (as_bytes "hello")) loc ts))
      sig = true.
Proof.
  apply (@verify_request_ok (toy_externals []) _ _ 100%N "POST" "example.com"
           "/v1/messages" (as_bytes "hello") demo_headers demo_key_bytes (mkDuration 60 0)).
  vm_compute. reflexivity.
Defined.

Lemma sign_bytes_verify_witness :
  @sign_bytes (toy_externals []) demo_key_bytes (as_bytes "hello") =
    Ok (toy_sign demo_key_bytes (as_bytes "hello")) /\
  exists sig,
    @sign_bytes (toy_externals []) demo_key_bytes (as_bytes "hello") = Ok sig /\
    @verify_signature (toy_externals []) demo_key_bytes (as_bytes "hello") sig = Ok tt.
Proof.
  destruct (@sign_bytes_verify (toy_externals []) demo_key_bytes demo_key_bytes
              (as_bytes "hello")) as (_ & Hok & Hver).
  split.
  - apply Hok. reflexivity.
  - apply Hver; [reflexivity | reflexivity | reflexivity | reflexivity | vm_compute; reflexivity].
Defined.

Lemma get_identity_key_and_id_witness :
  exists rest,
    last_value (field_keys FPublicKey) doc_with_icon = Some (PK_PREFIX ++ rest) /\
    hex_decode rest = Some (public_key (identity_of doc_with_icon)) /\
    id (identity_of doc_with_icon) =
      hex_encode (@sha256 (toy_externals doc_with_icon) (public_key (identity_of doc_with_icon))) /\
    location_url (identity_of doc_with_icon) = sample_url.
Proof.
  apply (@get_identity_key_and_id (toy_externals doc_with_icon) sample_url "").
  reflexivity.
Defined.

Lemma get_identity_location_witness :
  location (identity_of doc_with_icon) = trim_end_matches slash ("example.com" ++ "/me/") /\
  (forall pre : string, location (identity_of doc_with_icon) <> pre ++ "/").
Proof.
  apply (@get_identity_location (toy_externals doc_with_icon) sample_url "").
  reflexivity.
Defined.

Lemma get_identity_display_name_witness :
  display_name (identity_of doc_with_icon) =
    match option_or (option_or (option_or (last_value (field_keys FDisplayName) doc_with_icon)
                                          (last_value (field_keys FAuthor) doc_with_icon))
                               (last_value (field_keys FOgAuthor) doc_with_icon))
                    (last_value (field_keys FOgTitle) doc_with_icon) with
    | Some s => if String.eqb s "" then location (identity_of doc_with_icon) else s
    | None => location (identity_of doc_with_icon)
    end /\
  (display_name (identity_of doc_with_icon) = "" -> location (identity_of doc_with_icon) = "").
Proof.
  apply (@get_identity_display_name (toy_externals doc_with_icon) sample_url "").
  reflexivity.
Defined.

Lemma get_identity_avatar_witness :
  (exists i,
     @get_identity (join_failing_externals doc_with_icon) sample_url "" = Returns (Ok i)) /\
  avatar (match @get_identity (join_failing_externals doc_with_icon) sample_url "" with
          | Returns (Ok i) => i
          | _ => mkIdentity "" [] "" None None sample_url ""
          end) = None.
Proof.
  destruct (@get_identity_avatar (join_failing_externals doc_with_icon) sample_url "")
    as [Hav Hok].
  split.
  - apply Hok. split; [reflexivity|].
    exists (hex_encode (repeat x01 32)), (repeat x01 32).
    split; [reflexivity|]. split; [reflexivity|]. split; reflexivity.
  - match goal with |- avatar ?i = None => rewrite (Hav i eq_refl) end.
    reflexivity.
Defined.

Lemma resolve_location_url_outcomes_witness :
  @resolve_location_url (toy_externals []) "http://amy.carroted.org" =
    Ok (mkUrl "http://amy.carroted.org" (Some "example.com") "/") /\
  ((exists pe, UnsupportedProtocol "ftp" = UrlParse pe) \/
   (exists scheme, UnsupportedProtocol "ftp" = UnsupportedProtocol scheme /\
                   scheme <> "http" /\ scheme <> "https")).
Proof.
  split.
  - rewrite (proj1 (@resolve_location_url_outcomes (toy_externals []) "http://amy.carroted.org")
               eq_refl (or_introl eq_refl)).
    reflexivity.
  - apply (proj2 (proj2 (proj2
             (@resolve_location_url_outcomes (toy_externals []) "ftp://amy.carroted.org")))).
    reflexivity.
Defined.
